(** * kartevonmorgen: the entry form, the ratings list and slug navigation

    A shallow embedding of [components/EntryForm.tsx] (the entry
    submission workflow), [components/EntityRatings.tsx] (grouping and
    threading of ratings) and of the slug helpers they call.

    Conventions of the embedding:
    - a JavaScript object used as a record of form fields is a
      [gmap string JValue]; an absent key reads as [JUndefined];
    - an object literal that is iterated over (a table of defaults, of
      rules, of renamings) is a list of pairs in the order it is written;
    - numbers are integers ([Z]): the only number the workflow computes
      with is the version counter, coordinates are copied and never
      computed with;
    - strings are byte strings; where the code goes by UTF-16 code units
      the text is a list of code units (the description of a result
      card) or the property is stated for ASCII (the first character of
      a scalar license);
    - an asynchronous function is a state transformer on a [World] that
      returns [Resolved] or [Rejected]; every effect (state setter,
      network request, store action, router call) is appended to the
      world's effect log in the order it is performed. *)

From Stdlib Require Import ZArith List Bool Lia Permutation Sorted.
From Stdlib Require Import Strings.String Strings.Ascii Structures.OrdersEx.
From stdpp Require Import base option list sorting strings pretty gmap fin_maps.

Set Warnings "-register-all".

Open Scope string_scope.
Open Scope list_scope.

(** ** JavaScript values *)

Inductive JValue : Type :=
| JUndefined
| JNull
| JNum (n : Z)
| JStr (s : string)
| JArr (items : list JValue)
| JObj (fields : list (string * JValue)).

(** [o.k] *)
Definition prop (o : gmap string JValue) (k : string) : JValue :=
  default JUndefined (o !! k).

(** lodash [isNil]: [null] or [undefined]. *)
Definition isNil (v : JValue) : bool :=
  match v with
  | JUndefined | JNull => true
  | _ => false
  end.

(** [String(v)], with [Array.prototype.toString] joining on a comma. *)
Fixpoint toString (v : JValue) : string :=
  match v with
  | JUndefined => "undefined"
  | JNull => "null"
  | JNum n => pretty n
  | JStr s => s
  | JArr items =>
      String.concat ","
        (List.map (fun x => if isNil x then "" else toString x) items)
  | JObj _ => "[object Object]"
  end.

(** [items.join(sep)]: [null] and [undefined] elements become empty. *)
Definition join (sep : string) (items : list JValue) : string :=
  String.concat sep
    (List.map (fun x => if isNil x then "" else toString x) items).

(** ** FormFieldTransformer ([utils/objects]) *)

Module Objects.

(** One key of the defaults table. *)
Definition setDefault (acc : gmap string JValue) (kd : string * JValue)
  : gmap string JValue :=
  if isNil (prop acc kd.1) then <[kd.1 := kd.2]> acc else acc.

(** Modelled from the spec: [utils/objects.setValuesToDefaultOrNull] is
    not among the sources.  Spec 4.3 (fillDefaults): for every key of
    the defaults table, a field that is absent or null on the entry is
    set to the table's default; a present, non-null value is never
    overwritten. *)
Definition setValuesToDefaultOrNull
    (entry : gmap string JValue) (defaults : list (string * JValue))
  : gmap string JValue :=
  foldl setDefault entry defaults.

(** One key of the rules table. *)
Definition applyRule
    (acc : gmap string JValue) (kr : string * (JValue -> JValue))
  : gmap string JValue :=
  match acc !! kr.1 with
  | Some v => <[kr.1 := kr.2 v]> acc
  | None => acc
  end.

(** Modelled from the spec: [utils/objects.transformObject] is not among
    the sources.  Spec 4.3 (applyRules): for every key present in both
    the entry and the rules table, the field's value is replaced with
    the rule applied to the current value. *)
Definition transformObject
    (entry : gmap string JValue) (rules : list (string * (JValue -> JValue)))
  : gmap string JValue :=
  foldl applyRule entry rules.

(** One key of the rename table. *)
Definition renameProperty
    (acc : gmap string JValue) (on : string * string)
  : gmap string JValue :=
  match acc !! on.1 with
  | Some v => <[on.2 := v]> (delete on.1 acc)
  | None => acc
  end.

(** Modelled from the spec: [utils/objects.renameProperties] is not among
    the sources.  Spec 4.3 (renameFields): every key present in the
    rename table is copied under its mapped name and the original key is
    removed; all other keys pass through unchanged. *)
Definition renameProperties
    (entry : gmap string JValue) (fieldsToRename : list (string * string))
  : gmap string JValue :=
  foldl renameProperty entry fieldsToRename.

End Objects.

(** ** The tables and the pipeline of [EntryForm.tsx] *)

Definition defaultFieldValues : list (string * JValue) :=
  [("tags", JArr []); ("custom_links", JArr []); ("version", JNum 0)].

Definition setFieldsToDefaultOrNull (entry : gmap string JValue)
  : gmap string JValue :=
  let entryFormWithDefaultValues :=
    Objects.setValuesToDefaultOrNull entry defaultFieldValues in
  entryFormWithDefaultValues.

(** [(version: number): number => version + 1].  The parameter type
    excludes everything but numbers; the model maps other values to
    [JUndefined]. *)
Definition versionRule (version : JValue) : JValue :=
  match version with
  | JNum n => JNum (n + 1)
  | _ => JUndefined
  end.

(** [object[key]] of an object value. *)
Fixpoint field (fields : list (string * JValue)) (key : string) : JValue :=
  match fields with
  | [] => JUndefined
  | (k, v) :: fields' => if String.eqb k key then v else field fields' key
  end.

(** The values on which the license rule throws: reading [.length] of
    [null] or [undefined] is a TypeError.  The form keeps both away from
    the rule: its license field is required. *)
Definition licenseRuleThrows (licenseArray : JValue) : bool :=
  isNil licenseArray.

(** The license rule, on whatever reaches it:
    [if (licenseArray.length === 0) return ''; return licenseArray[0]].
    An array gives its first element, a string (the edit form submits
    the scalar license of the fetched entry) its first character, a
    number has neither length nor index, an object is asked for its
    fields.  Where the source throws ([licenseRuleThrows]) there is no
    value; the model has [JUndefined] there and no property relies on
    it. *)
Definition licenseRule (licenseArray : JValue) : JValue :=
  match licenseArray with
  | JArr [] => JStr ""
  | JArr (first :: _) => first
  | JStr EmptyString => JStr ""
  | JStr (String first _) => JStr (String first EmptyString)
  | JNum _ => JUndefined
  | JObj fields =>
      match field fields "length" with
      | JNum 0 => JStr ""
      | _ => field fields "0"
      end
  | JNull | JUndefined => JUndefined
  end.

Definition rules : list (string * (JValue -> JValue)) :=
  [("version", versionRule); ("license", licenseRule)].

Definition fieldsToRename : list (string * string) :=
  [("custom_links", "links")].

Definition transformFormFields (entry : gmap string JValue)
  : gmap string JValue :=
  let transformedEntry := Objects.transformObject entry rules in
  let transformedEntryWithRenamedFields :=
    Objects.renameProperties transformedEntry fieldsToRename in
  transformedEntryWithRenamedFields.

(** The entry as [createNewEntry] sends it. *)
Definition adaptedEntry (entry : gmap string JValue) : gmap string JValue :=
  transformFormFields (setFieldsToDefaultOrNull entry).




(** ** Slug navigation ([utils/slug], [utils/types]) *)

(** [RouterQueryParam]: a query parameter arrives as one string or as an
    array of strings; an undefined parameter is an absent key. *)
Inductive RouterQueryParam : Type :=
| QString (s : string)
| QArray (ss : list string).

Module Slug.

(** [SlugVerb], with the verb names of the spec. *)
Inductive SlugVerb : Type := CREATE | EDIT.

Definition verbName (v : SlugVerb) : string :=
  match v with
  | CREATE => "create"
  | EDIT => "edit"
  end.

Definition parseVerb (token : string) : option SlugVerb :=
  if String.eqb token "create" then Some CREATE
  else if String.eqb token "edit" then Some EDIT
  else None.

(** A chain entry: an entity-type token with an optional id, or (spec 9)
    the explicit variant for a token that is neither. *)
Inductive ChainEntry : Type :=
| Entity (entityType : string) (id : option string)
| UnknownToken (token : string).

Record NavigationDescriptor : Type := {
  chain : list ChainEntry;
  verb : option SlugVerb
}.

Definition push (e : ChainEntry) (d : NavigationDescriptor)
  : NavigationDescriptor :=
  {| chain := e :: chain d; verb := verb d |}.

Definition encodeEntry (e : ChainEntry) : list string :=
  match e with
  | Entity entityType None => [entityType]
  | Entity entityType (Some id) => [entityType; id]
  | UnknownToken token => [token]
  end.

(** Modelled from the spec: the slug encoder of [utils/slug] is not among
    the sources.  Spec 4.1 (encode): emits the entity-type token, then
    the id token if present, per chain entry in order, then the verb
    token, if present, last. *)
Definition encode (d : NavigationDescriptor) : list string :=
  List.concat (List.map encodeEntry (chain d))
    ++ match verb d with
       | Some v => [verbName v]
       | None => []
       end.

Section Codec.

(** The table of plural resource names ([utils/types]) decides which
    tokens are entity-type tokens. *)
Variable isEntityType : string -> bool.

(** A token that can be consumed as an id: neither an entity-type
    token nor a verb. *)
Definition isIdToken (token : string) : bool :=
  negb (isEntityType token)
  && match parseVerb token with Some _ => false | None => true end.

(** Modelled from the spec: the slug decoder of [utils/slug] is not
    among the sources.  Spec 4.1 (decode): segments are consumed left
    to right; an entity-type token opens a chain entry and the token
    after it, unless it is an entity-type token or a verb, is consumed
    as the entry's id; a final unconsumed token that is a verb name
    becomes the descriptor's verb; decoding never fails, a token that
    fits nowhere is kept as an opaque entry; the empty list decodes to
    the empty chain with no verb. *)
Fixpoint decode (segments : list string) : NavigationDescriptor :=
  match segments with
  | [] => {| chain := []; verb := None |}
  | token :: rest =>
      match rest, parseVerb token with
      | [], Some v => {| chain := []; verb := Some v |}
      | _, _ =>
          if isEntityType token then
            match rest with
            | next :: rest' =>
                if isIdToken next
                then push (Entity token (Some next)) (decode rest')
                else push (Entity token None) (decode rest)
            | [] => {| chain := [Entity token None]; verb := None |}
            end
          else push (UnknownToken token) (decode rest)
      end
  end.

(** A well-formed chain entry has an entity-type token (which is not a
    verb name) and optionally an id, that is a token of the id class. *)
Definition wfEntry (e : ChainEntry) : bool :=
  match e with
  | Entity entityType id =>
      isEntityType entityType
      && match parseVerb entityType with Some _ => false | None => true end
      && match id with Some i => isIdToken i | None => true end
  | UnknownToken _ => false
  end.

Definition wellFormed (d : NavigationDescriptor) : bool :=
  forallb wfEntry (chain d).

(** Well-formed by structure alone: every chain entry has an entity-type
    token and optionally an id, whatever the id is. *)
Definition hasEntityType (e : ChainEntry) : bool :=
  match e with
  | Entity entityType _ => isEntityType entityType
  | UnknownToken _ => false
  end.

Definition wellFormedByStructure (d : NavigationDescriptor) : bool :=
  forallb hasEntityType (chain d).

End Codec.

(** [Category] of [dtos/Categories]. *)
Inductive Category : Type := INITIATIVE | COMPANY | EVENT.

(** The entity-type tokens the spec and the sources name. *)
Definition entityTypeTokens : list string :=
  ["entities"; "events"; "ratings"; "comments"].

Definition isEntityTypeToken (token : string) : bool :=
  existsb (String.eqb token) entityTypeTokens.

End Slug.

(** ** Requests *)

(** What the [useRequest] hook hands to a component: the data once it
    has arrived, the error once the request has failed. *)
Record Response (A : Type) : Type := {
  data : option A;
  error : option string
}.
Arguments data {A} _.
Arguments error {A} _.

Module Endpoints.
(** Modelled from the spec: [api/endpoints] is not among the sources.
    Spec 6: POST /entries, PUT /entries/{id}, POST /entries/duplicates,
    GET /entries/{id}, GET /ratings/{comma-joined ids}. *)
Definition postEntries : string := "/entries".
Definition getEntries : string := "/entries".
Definition checkForDuplicate : string := "/entries/duplicates".
Definition getRatings : string := "/ratings".
End Endpoints.

(** A value inside a template literal: [undefined] prints its name. *)
Definition template (id : option string) : string :=
  default "undefined" id.

(** ** The entry form ([components/EntryForm.tsx]) *)

Module EntryForm.

Definition SearchEntryID : Type := string.

Inductive Method : Type := POST | PUT.

(** The server as the form sees it: the answer to each request, [None]
    when the request is rejected. *)
Record Server : Type := {
  duplicatesOf : gmap string JValue -> option (list (gmap string JValue));
  createdId : gmap string JValue -> option SearchEntryID;
  updated : string -> gmap string JValue -> option unit
}.

Inductive Outcome (A : Type) : Type :=
| Resolved (a : A)
| Rejected.
Arguments Resolved {A} a.
Arguments Rejected {A}.

Section Workflow.

(** [dtos/SearchEntry] is not among the sources: the search-result
    shape and the conversion to it are parameters. *)
Context {SearchEntry : Type}.
Variable convertNewEntryToSearchEntry :
  option SearchEntryID -> gmap string JValue -> SearchEntry.
Variable server : Server.

(** [utils/slug.redirectToEntityDetail] is not among the sources: the
    path and the query that it asks the router to replace the location
    with, given the current query, the target id, the target category,
    the number of slug levels and the keys to strip, are a parameter. *)
Variable redirectToEntityDetail :
  gmap string RouterQueryParam -> option SearchEntryID -> Slug.Category ->
  nat -> list string -> string * gmap string RouterQueryParam.

(** Everything the form does to the outside, and its state setters. *)
Inductive Effect : Type :=
| SetFormData (entry : gmap string JValue)
| SetShowModal (show : bool)
| SetDuplicate (candidates : list (gmap string JValue))
| AxiosRequest (method : Method) (url : string) (body : gmap string JValue)
| DispatchPrependEntry (searchEntry : SearchEntry)
| RouterReplace (pathname : string) (query : gmap string RouterQueryParam).

(** The component state ([useState]), the result collection of the
    store, and the log of effects, oldest first. *)
Record World : Type := {
  formData : gmap string JValue;
  showModal : bool;
  duplicate : list (gmap string JValue);
  entries : list SearchEntry;
  effects : list Effect
}.

Definition Async (A : Type) : Type := World -> Outcome A * World.

Definition ret {A : Type} (a : A) : Async A := fun w => (Resolved a, w).

(** [await]: a rejection skips the rest of the function. *)
Definition bind {A B : Type} (c : Async A) (k : A -> Async B) : Async B :=
  fun w =>
    match c w with
    | (Resolved a, w') => k a w'
    | (Rejected, w') => (Rejected, w')
    end.

Definition log (e : Effect) (w : World) : World :=
  {| formData := formData w; showModal := showModal w;
     duplicate := duplicate w; entries := entries w;
     effects := effects w ++ [e] |}.

Definition setFormData (entry : gmap string JValue) : Async unit :=
  fun w =>
    (Resolved tt,
     log (SetFormData entry)
       {| formData := entry; showModal := showModal w;
          duplicate := duplicate w; entries := entries w;
          effects := effects w |}).

Definition setShowModal (show : bool) : Async unit :=
  fun w =>
    (Resolved tt,
     log (SetShowModal show)
       {| formData := formData w; showModal := show;
          duplicate := duplicate w; entries := entries w;
          effects := effects w |}).

Definition setDuplicate (candidates : list (gmap string JValue))
  : Async unit :=
  fun w =>
    (Resolved tt,
     log (SetDuplicate candidates)
       {| formData := formData w; showModal := showModal w;
          duplicate := candidates; entries := entries w;
          effects := effects w |}).

(** [AxiosInstance.PostRequest] and [PutRequest]: the request goes out,
    then the promise resolves with the response or rejects. *)
Definition request {T : Type} (method : Method) (url : string)
    (body : gmap string JValue) (response : option T) : Async T :=
  fun w =>
    (match response with
     | Some d => Resolved d
     | None => Rejected
     end,
     log (AxiosRequest method url body) w).

(** Modelled from the spec: the [prependEntry] reducer of [slices] is
    not among the sources.  Spec 4.4: the record is inserted at the
    front of the in-memory result collection. *)
Definition dispatchPrependEntry (searchEntry : SearchEntry) : Async unit :=
  fun w =>
    (Resolved tt,
     log (DispatchPrependEntry searchEntry)
       {| formData := formData w; showModal := showModal w;
          duplicate := duplicate w; entries := searchEntry :: entries w;
          effects := effects w |}).

Definition routerReplace (target : string * gmap string RouterQueryParam)
  : Async unit :=
  fun w => (Resolved tt, log (RouterReplace target.1 target.2) w).

Notation "'let*' x ':=' c 'in' k" := (bind c (fun x => k))
  (at level 10, x name, c at level 100, k at level 200).

Definition redirectToEntry
    (router : gmap string RouterQueryParam) (entryId : option SearchEntryID)
  : Async unit :=
  routerReplace
    (redirectToEntityDetail router entryId Slug.INITIATIVE 2
       ["pinLat"; "pinLng"]).

Definition addEntryToState
    (id : option SearchEntryID) (entry : gmap string JValue) : Async unit :=
  let searchEntry := convertNewEntryToSearchEntry id entry in
  dispatchPrependEntry searchEntry.

Definition onCreate (entry : gmap string JValue) : Async SearchEntryID :=
  request POST Endpoints.postEntries entry (createdId server entry).

Definition onEdit (entry : gmap string JValue)
    (entryId : option SearchEntryID) : Async unit :=
  let url := Endpoints.postEntries +:+ "/" +:+ template entryId in
  request PUT url entry (updated server url entry).

Definition createOrEditEntry (entry : gmap string JValue)
    (entryId : option SearchEntryID) (isEdit : bool)
  : Async (option SearchEntryID) :=
  if isEdit then
    let* _ := onEdit entry entryId in
    ret entryId
  else
    let* newId := onCreate entry in
    ret (Some newId).

Definition addEntryToStateOnCreate (isEdit : bool)
    (id : option SearchEntryID) (entry : gmap string JValue) : Async unit :=
  if isEdit then ret tt
  else addEntryToState id entry.

(** The field classes of the data model (spec 3): what identifies an
    entry, where it is, how to reach it. *)
Definition identityFields : list string := ["title"; "description"].
Definition locationFields : list string :=
  ["city"; "zip"; "country"; "state"; "street"; "lat"; "lng"].
Definition contactFields : list string := ["contact"; "telephone"; "email"].

(** The object literal of [checkDuplicateEntries]. *)
Definition duplicatePayload (entry : gmap string JValue)
  : gmap string JValue :=
  let license :=
    match prop entry "license" with
    | JArr items => JStr (join "" items)
    | other => other
    end in
  list_to_map
    [("title", prop entry "title");
     ("description", prop entry "description");
     ("city", prop entry "city");
     ("zip", prop entry "zip");
     ("country", prop entry "country");
     ("state", prop entry "state");
     ("street", prop entry "street");
     ("lat", prop entry "lat");
     ("lng", prop entry "lng");
     ("telephone", prop entry "telephone");
     ("email", prop entry "email");
     ("id", JNull);
     ("homepage", JNull);
     ("tags", JArr []);
     ("image_url", JNull);
     ("image_link_url", JNull);
     ("opening_hours", JNull);
     ("links", JArr []);
     ("version", JNum 1);
     ("contact", JNull);
     ("categories", JArr []);
     ("license", license)].

Definition checkDuplicateEntries (entry : gmap string JValue)
  : Async (list (gmap string JValue)) :=
  let duplicate := duplicatePayload entry in
  request POST Endpoints.checkForDuplicate duplicate
    (duplicatesOf server duplicate).

Definition createNewEntry (entry : gmap string JValue)
    (router : gmap string RouterQueryParam) (isEdit : bool)
    (entryId : option SearchEntryID) : Async unit :=
  let entryWithDefaultValues := setFieldsToDefaultOrNull entry in
  let adaptedEntry := transformFormFields entryWithDefaultValues in
  let* entryId := createOrEditEntry adaptedEntry entryId isEdit in
  let* _ := addEntryToStateOnCreate isEdit entryId adaptedEntry in
  redirectToEntry router entryId.

Definition onFinish (router : gmap string RouterQueryParam)
    (isEdit : bool) (entryId : option SearchEntryID)
    (entry : gmap string JValue) : Async unit :=
  let* _ := setFormData entry in
  let* duplicate := checkDuplicateEntries entry in
  if (0 <? length duplicate)%nat then
    let* _ := setShowModal true in
    setDuplicate duplicate
  else
    createNewEntry entry router isEdit entryId.

(** The confirmation handler given to [DuplicateListModal]: it replays
    the cached payload.  It is no async function and drops the promise of
    [createNewEntry]: whatever becomes of the commit, the handler itself
    returns undefined. *)
Definition HandlerModal (router : gmap string RouterQueryParam)
    (isEdit : bool) (entryId : option SearchEntryID) : Async unit :=
  fun w =>
    (Resolved tt, (createNewEntry (formData w) router isEdit entryId w).2).

(** A create (POST /entries) or edit (PUT) call, as opposed to the
    duplicate check. *)
Definition isCommit (e : Effect) : bool :=
  match e with
  | AxiosRequest POST url _ => String.eqb url Endpoints.postEntries
  | AxiosRequest PUT _ _ => true
  | _ => false
  end.

(** The effects performed between two worlds. *)
Definition effectsSince (w w' : World) : list Effect :=
  drop (length (effects w)) (effects w').

(** *** What the component renders *)

Inductive View : Type :=
| Spinner
| Form (initialValues : gmap string JValue).

(** The runtime value of a category ([dtos/Categories] is not among
    the sources). *)
Variable categoryValue : Slug.Category -> JValue.

(** The early returns of [EntryForm]; [None] is a null render. *)
Definition render (category : Slug.Category) (verb : Slug.SlugVerb)
    (response : Response (list (gmap string JValue))) : option View :=
  let isEdit :=
    match verb with Slug.EDIT => true | Slug.CREATE => false end in
  let foundEntry :=
    match data response with
    | Some (_ :: _) => true
    | _ => false
    end in
  let entry :=
    match data response with
    | Some (first :: _) => first
    | _ => ∅
    end in
  let entry := <["categories" := JArr [categoryValue category]]> entry in
  match error response with
  | Some _ => None
  | None =>
      if negb (bool_decide (is_Some (data response))) && isEdit
      then Some Spinner
      else if negb foundEntry && isEdit then None
      else Some (Form entry)
  end.

End Workflow.

End EntryForm.

(** The order in which [Array.prototype.sort] without a comparator
    arranges strings: lexicographic, code unit by code unit. *)
Definition string_lt (a b : string) : Prop := String.ltb a b = true.

(** ** The ratings of an entity ([components/EntityRatings.tsx]) *)

Module EntityRatings.

(** [dtos/RatingComment] and [dtos/Rating], with the fields the
    component reads. *)
Record RatingComment : Type := {
  comment_id : string;
  created : Z;
  text : string
}.

Record Rating : Type := {
  rating_id : string;
  context : string;
  source : string;
  comments : list RatingComment
}.

(** *** lodash [groupBy] on the property [context]

    The result object is an association list in the order in which its
    keys were created, each key once. *)

Fixpoint pushTo (key : string) (value : Rating)
    (result : list (string * list Rating)) : list (string * list Rating) :=
  match result with
  | [] => [(key, [value])]
  | (k, group) :: result' =>
      if String.eqb k key then (k, group ++ [value]) :: result'
      else (k, group) :: pushTo key value result'
  end.

Definition groupBy (ratings : list Rating) : list (string * list Rating) :=
  foldl (fun result value => pushTo (context value) value result) [] ratings.

(** [Object.keys].  An engine lists keys that are array indices first;
    the component sorts the keys at once, and the sorted arrangement is
    the same for every order of the keys ([sort_Permutation_eq]). *)
Definition keys (object : list (string * list Rating)) : list string :=
  List.map fst object.

(** [object[key]] *)
Fixpoint get (object : list (string * list Rating)) (key : string)
  : option (list Rating) :=
  match object with
  | [] => None
  | (k, group) :: object' =>
      if String.eqb k key then Some group else get object' key
  end.

(** *** [Array.prototype.sort] without a comparator

    Strings are compared code unit by code unit; whichever algorithm the
    engine runs, the result on pairwise different keys is the one
    ascending arrangement, computed here by insertion. *)

Fixpoint insertSorted (s : string) (sorted : list string) : list string :=
  match sorted with
  | [] => [s]
  | h :: t => if String.leb s h then s :: h :: t else h :: insertSorted s t
  end.

Definition sort (l : list string) : list string :=
  foldr insertSorted [] l.

Definition groupedRatings (ratings : list Rating)
  : list (string * list Rating) :=
  groupBy ratings.

Definition sortedContexts (ratings : list Rating) : list string :=
  sort (keys (groupedRatings ratings)).

(** [const [rootComment, ...replies] = contextRating.comments] *)
Definition thread (contextRating : Rating)
  : option RatingComment * list RatingComment :=
  match comments contextRating with
  | [] => (None, [])
  | rootComment :: replies => (Some rootComment, replies)
  end.

(** *** What the component renders *)

Record CommentView : Type := {
  root : RatingComment;
  rootSource : string;
  replies : list RatingComment
}.

Inductive Rendered : Type :=
| Returned (view : option (list (string * list CommentView)))
| Threw.

(** The comment of one rating; reading [rootComment.id] of an undefined
    root throws. *)
Definition renderRating (contextRating : Rating) : option CommentView :=
  match thread contextRating with
  | (Some rootComment, replies) =>
      Some {| root := rootComment; rootSource := source contextRating;
              replies := replies |}
  | (None, _) => None
  end.

Definition renderContext (grouped : list (string * list Rating))
    (context : string) : option (string * list CommentView) :=
  views ← mapM renderRating (default [] (get grouped context));
  Some (context, views).

Definition hasRatings (ratingsIds : list string) : bool :=
  negb (length ratingsIds =? 0)%nat.

(** The argument of [useRequest]: the request, or [false]. *)
Definition ratingsRequest (ratingsIds : list string) : option string :=
  if hasRatings ratingsIds
  then Some (Endpoints.getRatings +:+ "/" +:+ String.concat "," ratingsIds)
  else None.

(** Modelled from the spec: [api/useRequest] is not among the sources.
    Spec 6 has the GET it performs; its caller passes a falsy argument
    "to prevent unnecessary calls": the hook fetches the url it is
    given, and nothing when it is given none. *)
Definition fetched (request : option string) : list string :=
  match request with
  | Some url => [url]
  | None => []
  end.

(** The early returns and the body of [EntityRatings]; [Returned None]
    is a null render. *)
Definition render (ratingsIds : list string)
    (response : Response (list Rating)) : Rendered :=
  if negb (hasRatings ratingsIds) then Returned None
  else
    match error response with
    | Some _ => Returned None
    | None =>
        match data response with
        | None => Returned None
        | Some ratings =>
            let groupedRatings := groupBy ratings in
            let sortedContexts := sort (keys groupedRatings) in
            match mapM (renderContext groupedRatings) sortedContexts with
            | Some sections => Returned (Some sections)
            | None => Threw
            end
        end
    end.

End EntityRatings.

(** ** A mounted entry form over several user actions *)

Module Session.

Section Session.

Context {SearchEntry : Type}.
Variable convertNewEntryToSearchEntry :
  option EntryForm.SearchEntryID -> gmap string JValue -> SearchEntry.
Variable server : EntryForm.Server.
Variable redirectToEntityDetail :
  gmap string RouterQueryParam -> option EntryForm.SearchEntryID ->
  Slug.Category -> nat -> list string ->
  string * gmap string RouterQueryParam.

(** The props and the router of the mounted form. *)
Variable router : gmap string RouterQueryParam.
Variable isEdit : bool.
Variable entryId : option EntryForm.SearchEntryID.

(** What the user can do to the form: submit it ([onFinish]), or confirm
    in the duplicate modal ([HandlerModal]). *)
Inductive Action : Type :=
| Submit (entry : gmap string JValue)
| Confirm.

(** The confirmation belongs to the modal: it can be given only while
    the modal is shown. *)
Definition enabled (a : Action)
    (w : EntryForm.World (SearchEntry := SearchEntry)) : bool :=
  match a with
  | Submit _ => true
  | Confirm => EntryForm.showModal w
  end.

Definition step (a : Action)
    (w : EntryForm.World (SearchEntry := SearchEntry))
  : EntryForm.World (SearchEntry := SearchEntry) :=
  match a with
  | Submit entry =>
      (EntryForm.onFinish convertNewEntryToSearchEntry server
         redirectToEntityDetail router isEdit entryId entry w).2
  | Confirm =>
      (EntryForm.HandlerModal convertNewEntryToSearchEntry server
         redirectToEntityDetail router isEdit entryId w).2
  end.

(** The world after a sequence of actions, [None] when one of them is not
    enabled. *)
Fixpoint run (actions : list Action)
    (w : EntryForm.World (SearchEntry := SearchEntry))
  : option (EntryForm.World (SearchEntry := SearchEntry)) :=
  match actions with
  | [] => Some w
  | a :: actions' => if enabled a w then run actions' (step a w) else None
  end.

(** The request of [checkDuplicateEntries]. *)
Definition isDuplicateCheck
    (e : EntryForm.Effect (SearchEntry := SearchEntry)) : bool :=
  match e with
  | EntryForm.AxiosRequest EntryForm.POST url _ =>
      String.eqb url Endpoints.checkForDuplicate
  | _ => false
  end.

(** A log in which every create or edit request comes after a duplicate
    check; [seen] tells whether a check has already gone out. *)
Fixpoint commitsChecked (seen : bool)
    (log : list (EntryForm.Effect (SearchEntry := SearchEntry))) : bool :=
  match log with
  | [] => true
  | e :: log' =>
      if EntryForm.isCommit e then seen && commitsChecked seen log'
      else commitsChecked (seen || isDuplicateCheck e) log'
  end.

End Session.

End Session.

(** ** What the entry form fetches and how the pin fills the address *)

Module EntryFormData.

(** [optionalOrgTag && isString(optionalOrgTag) ? optionalOrgTag : null];
    an array is truthy but no string, the empty string is falsy. *)
Definition orgTag (query : gmap string RouterQueryParam) : option string :=
  match query !! "org-tag" with
  | Some (QString s) => if String.eqb s "" then None else Some s
  | _ => None
  end.

(** The argument of [useRequest] in [EntryForm]: the url and the
    [org_tag] parameter, or [false]. *)
Definition entriesRequest (verb : Slug.SlugVerb)
    (entryId : option EntryForm.SearchEntryID)
    (query : gmap string RouterQueryParam)
  : option (string * option string) :=
  let isEdit :=
    match verb with Slug.EDIT => true | Slug.CREATE => false end in
  if isEdit
  then Some (Endpoints.getEntries +:+ "/" +:+ template entryId, orgTag query)
  else None.

(** [dtos/Point]: the coordinates of the pin. *)
Record Point : Type := {
  lat : JValue;
  lng : JValue
}.

(** antd's [form.setFieldsValue]: the listed fields get the listed
    values, the other fields keep theirs. *)
Definition setFieldsValue (values : gmap string JValue)
    (fields : list (string * JValue)) : gmap string JValue :=
  foldl (fun acc kv => <[kv.1 := kv.2]> acc) values fields.

Section Geocode.

(** [utils/geolocation.getCityFromAddress] is not among the sources. *)
Variable getCityFromAddress : gmap string JValue -> JValue.

(** [setAddressDetails]: [place] is the address that [reverseGeocode]
    resolved with, [None] when it rejected; the result is the values of
    the form afterwards. *)
Definition setAddressDetails (form : gmap string JValue) (newPoint : Point)
    (place : option (gmap string JValue)) : gmap string JValue :=
  match place with
  | None => form
  | Some address =>
      setFieldsValue form
        [("lat", lat newPoint);
         ("lng", lng newPoint);
         ("country", prop address "country");
         ("city", getCityFromAddress address);
         ("state", prop address "state");
         ("street", prop address "road");
         ("zip", prop address "postcode")]
  end.

End Geocode.

End EntryFormData.

(** ** The result card ([components/ResultCard.tsx]) *)

Module ResultCard.

(** A UTF-16 code unit: the description is cut by code units, so it is a
    list of them. *)
Definition CodeUnit : Type := N.

(** The fields of a [SearchResult] that the card reads; the description
    and the tags may be undefined. *)
Record SearchResult : Type := {
  id : string;
  title : string;
  description : option (list CodeUnit);
  tags : option (list string);
  categories : list Slug.Category
}.

(** [Type] of [TypeChooser]. *)
Record ResultType : Type := {
  type_id : Slug.Category;
  name : string
}.

Definition sameCategory (a b : Slug.Category) : bool :=
  match a, b with
  | Slug.INITIATIVE, Slug.INITIATIVE
  | Slug.COMPANY, Slug.COMPANY
  | Slug.EVENT, Slug.EVENT => true
  | _, _ => false
  end.

(** What the card shows. *)
Record Card : Type := {
  className : string;
  cardTitle : string;
  timeDescription : option string;
  body : option (list CodeUnit * list string)
}.

Inductive Rendered : Type :=
| Returned (card : Card)
| Threw.

Section Card.

(** The table [types] of [TypeChooser] and the text that [formatDuration]
    of [utils/time] gives for the start and the end of an event are not
    among the sources. *)
Variable resultTypes : list ResultType.
Variable eventDuration : SearchResult -> string.

Definition getTimeDescriptionForEvent (entity : SearchResult)
    (type : ResultType) : option string :=
  if sameCategory (type_id type) Slug.EVENT
  then Some (eventDuration entity)
  else None.

(** The block under the title: the description cut with [substr(0, 70)]
    after lodash [toString] has made an undefined description empty, and
    [tags.slice(0, 3)]; nothing when the tags are undefined. *)
Definition cardBody (searchResult : SearchResult)
  : option (list CodeUnit * list string) :=
  let description := default [] (description searchResult) in
  match tags searchResult with
  | Some tags => Some (take 70 description, take 3 tags)
  | None => None
  end.

(** [ResultCard]: [resultTypes.find(t => t.id === categories[0])], then
    [type.name] is read, which throws when no type was found. *)
Definition render (searchResult : SearchResult) : Rendered :=
  let type :=
    match categories searchResult with
    | [] => None
    | first :: _ =>
        List.find (fun t => sameCategory (type_id t) first) resultTypes
    end in
  match type with
  | None => Threw
  | Some type =>
      Returned
        {| className := name type +:+ "-result-card";
           cardTitle := title searchResult;
           timeDescription := getTimeDescriptionForEvent searchResult type;
           body := cardBody searchResult |}
  end.

End Card.

End ResultCard.

(** ** The ratings as they are listed *)

Module RatingsList.

(** The ratings in the order in which the component goes through them:
    context by context in sorted order, each context's group in turn. *)
Definition listedRatings (ratings : list EntityRatings.Rating)
  : list EntityRatings.Rating :=
  let groupedRatings := EntityRatings.groupBy ratings in
  let sortedContexts := EntityRatings.sort (EntityRatings.keys groupedRatings) in
  mbind (fun context => default [] (EntityRatings.get groupedRatings context))
    sortedContexts.

(** [!isLastContext && <Divider dashed/>]: which contexts are followed
    by a divider. *)
Definition dividers (sortedContexts : list string) : list bool :=
  imap (fun i _ => negb (i =? length sortedContexts - 1)%nat) sortedContexts.

End RatingsList.

(** ** Sample data

    Concrete inputs on which the properties below are exercised. *)

Module Samples.

Definition c0 : EntityRatings.RatingComment :=
  {| EntityRatings.comment_id := "c0"; EntityRatings.created := 1600000000;
     EntityRatings.text := "Fair prices" |}.
Definition c1 : EntityRatings.RatingComment :=
  {| EntityRatings.comment_id := "c1"; EntityRatings.created := 1600000100;
     EntityRatings.text := "Agreed" |}.
Definition c2 : EntityRatings.RatingComment :=
  {| EntityRatings.comment_id := "c2"; EntityRatings.created := 1600000200;
     EntityRatings.text := "Me too" |}.

Definition fairness1 : EntityRatings.Rating :=
  {| EntityRatings.rating_id := "r1"; EntityRatings.context := "fairness";
     EntityRatings.source := ""; EntityRatings.comments := [c0; c1; c2] |}.
Definition diversity1 : EntityRatings.Rating :=
  {| EntityRatings.rating_id := "r2"; EntityRatings.context := "diversity";
     EntityRatings.source := "https://example.org";
     EntityRatings.comments := [c1] |}.
Definition fairness2 : EntityRatings.Rating :=
  {| EntityRatings.rating_id := "r3"; EntityRatings.context := "fairness";
     EntityRatings.source := ""; EntityRatings.comments := [c2] |}.

(** A new entry as the create form submits it. *)
Definition newEntry : gmap string JValue :=
  {[ "title" := JStr "Garden"; "description" := JStr "A community garden";
     "license" := JArr [JStr "CC0-1.0"] ]}.

(** An existing entry at version 5 as the edit form submits it. *)
Definition editedEntry : gmap string JValue :=
  {[ "title" := JStr "Garden"; "version" := JNum 5 ]}.

Definition candidate1 : gmap string JValue :=
  {[ "id" := JStr "d1"; "title" := JStr "Garden" ]}.
Definition candidate2 : gmap string JValue :=
  {[ "id" := JStr "d2"; "title" := JStr "Gardens" ]}.

(** A server that knows no duplicates and assigns the id 7. *)
Definition quietServer : EntryForm.Server :=
  {| EntryForm.duplicatesOf := fun _ => Some [];
     EntryForm.createdId := fun _ => Some "7";
     EntryForm.updated := fun _ _ => Some tt |}.

(** A server that reports two duplicates. *)
Definition duplicatesServer : EntryForm.Server :=
  {| EntryForm.duplicatesOf := fun _ => Some [candidate1; candidate2];
     EntryForm.createdId := fun _ => Some "7";
     EntryForm.updated := fun _ _ => Some tt |}.

(** The search-result shape is immaterial here: the pair of id and entry. *)
Definition asSearchEntry (id : option EntryForm.SearchEntryID)
    (entry : gmap string JValue)
  : option EntryForm.SearchEntryID * gmap string JValue :=
  (id, entry).

Definition freshWorld
  : EntryForm.World (SearchEntry := option string * gmap string JValue) :=
  {| EntryForm.formData := ∅; EntryForm.showModal := false;
     EntryForm.duplicate := []; EntryForm.entries := [];
     EntryForm.effects := [] |}.

(** The query of the create form, with the pin that seeded it. *)
Definition createQuery : gmap string RouterQueryParam :=
  {[ "slug" := QArray ["entities"; "create"];
     "pinLat" := QString "50"; "pinLng" := QString "8" ]}.

(** A query without slug segments. *)
Definition rootQuery : gmap string RouterQueryParam :=
  {[ "pinLat" := QString "50"; "pinLng" := QString "8";
     "org-tag" := QString "garden" ]}.

Definition failed {A : Type} : Response A :=
  {| data := None; error := Some "Network Error" |}.

End Samples.

(** Further sample data. *)

Module MoreSamples.

Definition orphan : EntityRatings.Rating :=
  {| EntityRatings.rating_id := "r4"; EntityRatings.context := "humanity";
     EntityRatings.source := ""; EntityRatings.comments := [] |}.

Definition arrived (ratings : list EntityRatings.Rating)
  : Response (list EntityRatings.Rating) :=
  {| data := Some ratings; error := None |}.

(** A server on which every create or edit request fails. *)
Definition failingServer : EntryForm.Server :=
  {| EntryForm.duplicatesOf := fun _ => Some [];
     EntryForm.createdId := fun _ => None;
     EntryForm.updated := fun _ _ => None |}.

Definition pin : EntryFormData.Point :=
  {| EntryFormData.lat := JNum 50; EntryFormData.lng := JNum 8 |}.

Definition typedForm : gmap string JValue :=
  {[ "title" := JStr "Garden"; "city" := JStr "Nowhere";
     "telephone" := JStr "+49 30 1234567" ]}.

Definition address : gmap string JValue :=
  {[ "country" := JStr "Germany"; "road" := JStr "Hauptstrasse" ]}.

(** "Grün" and 80 more code units. *)
Definition card : ResultCard.SearchResult :=
  {| ResultCard.id := "e1";
     ResultCard.title := "Garden";
     ResultCard.description :=
       Some ([71; 114; 252; 110]%N ++ replicate 80 32%N);
     ResultCard.tags := Some ["garden"; "food"; "urban"; "open"];
     ResultCard.categories := [Slug.INITIATIVE] |}.

Definition types : list ResultCard.ResultType :=
  [{| ResultCard.type_id := Slug.INITIATIVE;
      ResultCard.name := "initiative" |};
   {| ResultCard.type_id := Slug.EVENT; ResultCard.name := "event" |}].

(** What a valid form submits: title, description, telephone and email
    pass the rules of the form.  The create form gives the license as
    the array of its checkbox group, the edit form the version and the
    scalar license of the fetched entry. *)
Definition typedFields : list (string * JValue) :=
  [("title", JStr "Garden");
   ("description", JStr "A community garden");
   ("city", JStr "Berlin");
   ("telephone", JStr "+493022732152");
   ("email", JStr "garden@example.org")].

Definition createSubmission : gmap string JValue :=
  <["license" := JArr [JStr "CC0-1.0"]]> (list_to_map typedFields).

Definition editSubmission (license : string) : gmap string JValue :=
  <["license" := JStr license]>
    (<["version" := JNum 5]> (list_to_map typedFields)).

(** A resolver for the samples: the detail view of the target. *)
Definition toDetailView (query : gmap string RouterQueryParam)
    (id : option EntryForm.SearchEntryID) (category : Slug.Category)
    (levels : nat) (keysToStrip : list string)
  : string * gmap string RouterQueryParam :=
  ("/maps/entities/" +:+ template id, foldr delete query keysToStrip).

End MoreSamples.

(** * Properties *)









(** ** The order of [Array.prototype.sort] on strings *)

Lemma compare_String_as_OT (a b : string) :
  String_as_OT.compare a b = String.compare a b.
Proof.
  reflexivity.
Qed.

Lemma string_lt_compare (a b : string) :
  string_lt a b <-> String.compare a b = Lt.
Proof.
  unfold string_lt, String.ltb.
  destruct (String.compare a b); split; congruence.
Qed.

Lemma string_lt_irrefl (a : string) : ~ string_lt a a.
Proof.
  rewrite string_lt_compare, <- compare_String_as_OT.
  apply (StrictOrder_Irreflexive (R := String_as_OT.lt)).
Qed.

Lemma string_lt_trans (a b c : string) :
  string_lt a b -> string_lt b c -> string_lt a c.
Proof.
  rewrite !string_lt_compare, <- !compare_String_as_OT.
  apply (StrictOrder_Transitive (R := String_as_OT.lt)).
Qed.

Lemma string_leb_lt (a b : string) :
  String.leb a b = true -> a <> b -> string_lt a b.
Proof.
  rewrite string_lt_compare. unfold String.leb.
  destruct (String.compare a b) eqn:E; intros; try congruence.
  apply String.compare_eq_iff in E. congruence.
Qed.

Lemma string_leb_false (a b : string) :
  String.leb a b = false -> string_lt b a.
Proof.
  rewrite string_lt_compare. unfold String.leb.
  rewrite (String.compare_antisym b a).
  destruct (String.compare a b); simpl; congruence.
Qed.

Section SortProperties.
Import EntityRatings.

Lemma insertSorted_Permutation s l : insertSorted s l ≡ₚ s :: l.
Proof.
  induction l as [|h t IH]; simpl; [done|].
  destruct (String.leb s h); [done|].
  rewrite IH. apply Permutation_swap.
Qed.

Lemma sort_Permutation l : sort l ≡ₚ l.
Proof.
  induction l as [|h t IH]; simpl; [done|].
  by rewrite insertSorted_Permutation, IH.
Qed.

Lemma insertSorted_StronglySorted s l :
  s ∉ l -> StronglySorted string_lt l ->
  StronglySorted string_lt (insertSorted s l).
Proof.
  intros Hs Hl. induction Hl as [|h t Ht IH Hh]; simpl.
  - repeat constructor.
  - apply not_elem_of_cons in Hs as [Hne Hs].
    destruct (String.leb s h) eqn:E.
    + apply string_leb_lt in E; [|done].
      constructor; [by constructor|].
      constructor; [done|].
      eapply Forall_impl; [exact Hh|].
      intros x Hx. by eapply string_lt_trans.
    + apply string_leb_false in E.
      constructor; [by apply IH|].
      rewrite insertSorted_Permutation. by constructor.
Qed.

Lemma sort_StronglySorted l :
  NoDup l -> StronglySorted string_lt (sort l).
Proof.
  induction 1 as [|h t Hh Ht IH]; simpl; [constructor|].
  apply insertSorted_StronglySorted; [|done].
  by rewrite sort_Permutation.
Qed.

(** On pairwise different keys the sorted arrangement does not depend
    on the order in which the keys arrive. *)
Lemma sort_Permutation_eq l l' :
  NoDup l -> l ≡ₚ l' -> sort l = sort l'.
Proof.
  intros Hl Hp.
  apply (StronglySorted_unique_strong string_lt).
  - intros x y _ _ Hxy Hyx. exfalso.
    exact (string_lt_irrefl _ (string_lt_trans _ _ _ Hxy Hyx)).
  - by apply sort_StronglySorted.
  - apply sort_StronglySorted. by rewrite <- Hp.
  - by rewrite !sort_Permutation.
Qed.

End SortProperties.

(** ** Grouping and threading of ratings *)

Section RatingsProperties.
Import EntityRatings.

Implicit Types (object : list (string * list Rating)) (ratings : list Rating).

Lemma get_pushTo key value object k :
  get (pushTo key value object) k =
    if decide (key = k) then Some (default [] (get object key) ++ [value])
    else get object k.
Proof.
  induction object as [|[k0 group] object IH]; simpl.
  - destruct (String.eqb_spec key k); case_decide; congruence.
  - destruct (String.eqb_spec k0 key) as [->|Hne]; simpl.
    + destruct (String.eqb_spec key k); case_decide; congruence.
    + rewrite IH.
      destruct (String.eqb_spec k0 k) as [->|]; [|done].
      case_decide; congruence.
Qed.

Lemma keys_pushTo key value object :
  keys (pushTo key value object) =
    if decide (key ∈ keys object) then keys object else keys object ++ [key].
Proof.
  unfold keys. induction object as [|[k0 group] object IH]; simpl.
  - destruct (decide (key ∈ [])) as [H|H]; [by apply elem_of_nil in H|done].
  - destruct (String.eqb_spec k0 key) as [->|Hne]; simpl.
    + rewrite decide_True by constructor. done.
    + rewrite IH.
      destruct (decide (key ∈ List.map fst object)) as [H|H].
      * rewrite decide_True by (by constructor). done.
      * rewrite decide_False; [done|].
        intros [->|?]%elem_of_cons; done.
Qed.

Lemma elem_of_keys object k : k ∈ keys object <-> is_Some (get object k).
Proof.
  unfold keys. induction object as [|[k0 group] object IH]; simpl.
  - split; [by intros ?%elem_of_nil | by intros [? ?]].
  - rewrite elem_of_cons, IH.
    destruct (String.eqb_spec k0 k) as [->|Hne].
    + split; [by eauto | by left].
    + split; [intros [?|?]; [congruence|done] | by right].
Qed.

Lemma NoDup_keys_pushTo key value object :
  NoDup (keys object) -> NoDup (keys (pushTo key value object)).
Proof.
  intros Hnd. rewrite keys_pushTo. case_decide; [done|].
  apply NoDup_app. split_and!; [done| |apply NoDup_singleton].
  intros x Hx ->%list_elem_of_singleton. done.
Qed.

Lemma get_foldl_pushTo ratings object c :
  get (foldl (fun result value => pushTo (context value) value result)
         object ratings) c =
    match get object c with
    | Some group => Some (group ++ filter (fun r => context r = c) ratings)
    | None =>
        match filter (fun r => context r = c) ratings with
        | [] => None
        | group => Some group
        end
    end.
Proof.
  revert object. induction ratings as [|r ratings IH]; intros object; simpl.
  - rewrite filter_nil. destruct (get object c); by rewrite ?app_nil_r.
  - rewrite IH, get_pushTo, filter_cons.
    case_decide as Hc; [subst c|by destruct (get object c)].
    destruct (get object (context r)); simpl; [by rewrite <- app_assoc|done].
Qed.

Lemma get_groupBy ratings c :
  get (groupBy ratings) c =
    match filter (fun r => context r = c) ratings with
    | [] => None
    | group => Some group
    end.
Proof. unfold groupBy. by rewrite get_foldl_pushTo. Qed.

Lemma NoDup_keys_groupBy ratings : NoDup (keys (groupBy ratings)).
Proof.
  unfold groupBy.
  enough (forall object, NoDup (keys object) ->
    NoDup (keys (foldl (fun result value =>
                          pushTo (context value) value result)
                   object ratings))) as H by (apply H; constructor).
  induction ratings as [|r ratings IH]; intros object Hnd; simpl; [done|].
  by apply IH, NoDup_keys_pushTo.
Qed.

Lemma elem_of_keys_groupBy ratings c :
  c ∈ keys (groupBy ratings) <-> exists r, r ∈ ratings /\ context r = c.
Proof.
  rewrite elem_of_keys, get_groupBy. split.
  - destruct (filter _ ratings) as [|r group] eqn:E; [by intros [? ?]|].
    intros _. exists r.
    assert (r ∈ filter (fun r => context r = c) ratings) as Hr
      by (rewrite E; constructor).
    by apply list_elem_of_filter in Hr as [? ?].
  - intros (r & Hr & Hc).
    assert (r ∈ filter (fun r => context r = c) ratings) as Hin
      by (by apply list_elem_of_filter).
    destruct (filter _ ratings); [by apply elem_of_nil in Hin|by eauto].
Qed.

Lemma keys_groupBy_Permutation ratings ratings' :
  ratings' ≡ₚ ratings -> keys (groupBy ratings') ≡ₚ keys (groupBy ratings).
Proof.
  intros Hp. apply NoDup_Permutation; try apply NoDup_keys_groupBy.
  intros c. rewrite !elem_of_keys_groupBy.
  by setoid_rewrite Hp.
Qed.

(** C4.  A rating whose comment list is not empty is threaded into its
    first comment as the root and the remaining comments, in their
    order, as the replies; the comment is rendered with just these. *)
Theorem thread_root_and_replies (rating : Rating) :
  comments rating <> [] ->
  exists rootComment,
    comments rating !! 0%nat = Some rootComment
    /\ thread rating = (Some rootComment, drop 1 (comments rating))
    /\ (forall i, (thread rating).2 !! i = comments rating !! S i)
    /\ renderRating rating =
         Some {| root := rootComment; rootSource := source rating;
                 replies := drop 1 (comments rating) |}.
Proof.
  intros Hne. unfold renderRating, thread.
  destruct (comments rating) as [|c0 rest]; [done|].
  exists c0. simpl. rewrite drop_0. eauto.
Qed.

(** C5.  Grouping maps each context to the ratings that carry it, in
    their input order; the contexts are displayed in strictly ascending
    lexicographic order and are exactly the contexts that occur; the
    displayed contexts are the same for every permutation of the input,
    and the group of a context is the same whenever the permutation
    leaves the ratings of that context in their order. *)
Theorem group_stable_and_sorted (ratings : list Rating) :
  (forall c,
      get (groupedRatings ratings) c =
        match filter (fun r => context r = c) ratings with
        | [] => None
        | group => Some group
        end)
  /\ StronglySorted string_lt (sortedContexts ratings)
  /\ (forall c,
        c ∈ sortedContexts ratings <-> exists r, r ∈ ratings /\ context r = c)
  /\ (forall ratings',
        ratings' ≡ₚ ratings ->
        sortedContexts ratings' = sortedContexts ratings
        /\ forall c,
            filter (fun r => context r = c) ratings'
              = filter (fun r => context r = c) ratings ->
            get (groupedRatings ratings') c = get (groupedRatings ratings) c).
Proof.
  unfold sortedContexts, groupedRatings. split_and!.
  - apply get_groupBy.
  - apply sort_StronglySorted, NoDup_keys_groupBy.
  - intros c. rewrite sort_Permutation. apply elem_of_keys_groupBy.
  - intros ratings' Hp. split.
    + apply sort_Permutation_eq; [apply NoDup_keys_groupBy|].
      by apply keys_groupBy_Permutation.
    + intros c Hc. by rewrite !get_groupBy, Hc.
Qed.

End RatingsProperties.

(** ** The slug codec *)

Section CodecProperties.
Import Slug.

Variable isEntityType : string -> bool.

Lemma parseVerb_verbName v : parseVerb (verbName v) = Some v.
Proof. by destruct v. Qed.

Lemma parseVerb_Some token v : parseVerb token = Some v -> verbName v = token.
Proof.
  unfold parseVerb.
  destruct (String.eqb_spec token "create") as [->|];
    [by intros [= <-]|].
  destruct (String.eqb_spec token "edit") as [->|]; [by intros [= <-]|done].
Qed.

Lemma isIdToken_verbName v : isIdToken isEntityType (verbName v) = false.
Proof.
  unfold isIdToken. rewrite parseVerb_verbName. apply andb_false_r.
Qed.

Lemma isIdToken_entityType token :
  isEntityType token = true -> isIdToken isEntityType token = false.
Proof. unfold isIdToken. by intros ->. Qed.

(** The slug of a well-formed descriptor never starts with a token that
    could be taken for an id. *)
Lemma encode_head_not_id entries v token rest :
  forallb (wfEntry isEntityType) entries = true ->
  encode {| chain := entries; verb := v |} = token :: rest ->
  isIdToken isEntityType token = false.
Proof.
  unfold encode. simpl. destruct entries as [|[t id|t] entries]; simpl.
  - destruct v as [v|]; [|done]. intros _ [= <- _].
    apply isIdToken_verbName.
  - intros [[Ht _]%andb_prop _]%andb_prop.
    apply andb_prop in Ht as [Ht _].
    destruct id; intros [= <- _]; by apply isIdToken_entityType.
  - done.
Qed.

Lemma decode_cons_cons token next rest :
  decode isEntityType (token :: next :: rest) =
    if isEntityType token then
      if isIdToken isEntityType next
      then push (Entity token (Some next)) (decode isEntityType rest)
      else push (Entity token None) (decode isEntityType (next :: rest))
    else push (UnknownToken token) (decode isEntityType (next :: rest)).
Proof. cbn [decode]. by destruct (parseVerb token). Qed.

Lemma decode_encode_chain entries v :
  forallb (wfEntry isEntityType) entries = true ->
  decode isEntityType (encode {| chain := entries; verb := v |})
    = {| chain := entries; verb := v |}.
Proof.
  induction entries as [|e entries IH]; intros Hwf.
  - destruct v as [[]|]; reflexivity.
  - simpl in Hwf. apply andb_prop in Hwf as [He Hwf].
    specialize (IH Hwf).
    pose proof (encode_head_not_id entries v) as Hhead.
    unfold encode in *. simpl in *.
    destruct e as [t id|t]; [|done].
    simpl in He. apply andb_prop in He as [He Hid].
    apply andb_prop in He as [Ht Hv].
    destruct (parseVerb t) eqn:Hpv; [done|].
    destruct id as [i|]; cbn [encodeEntry app].
    + rewrite decode_cons_cons, Ht, Hid, IH. reflexivity.
    + destruct (List.concat _ ++ _) as [|next rest] eqn:E.
      * simpl. rewrite Hpv, Ht. simpl in IH. by injection IH as <- <-.
      * rewrite decode_cons_cons, Ht.
        rewrite (Hhead next rest Hwf eq_refl), IH. reflexivity.
Qed.

(** Decoding is total and loses nothing: every segment list, also a
    malformed one, is recovered from its descriptor. *)
Lemma encode_decode segments :
  encode (decode isEntityType segments) = segments.
Proof.
  remember (length segments) as n eqn:Hn.
  revert segments Hn.
  induction n as [n IH] using lt_wf_ind; intros segments ->.
  destruct segments as [|token rest]; [reflexivity|].
  assert (Hrest : encode (decode isEntityType rest) = rest)
    by (apply (IH (length rest)); simpl; [lia|reflexivity]).
  destruct rest as [|next rest'].
  - simpl. destruct (parseVerb token) eqn:Hpv.
    + unfold encode; simpl. by rewrite (parseVerb_Some _ _ Hpv).
    + by destruct (isEntityType token).
  - assert (Hrest' : encode (decode isEntityType rest') = rest')
      by (apply (IH (length rest')); simpl; [lia|reflexivity]).
    assert (Hpush : forall e d,
               encode (push e d) = (encodeEntry e ++ encode d)%list)
      by (intros e d; unfold encode, push; simpl; by rewrite <- app_assoc).
    rewrite decode_cons_cons.
    destruct (isEntityType token);
      [destruct (isIdToken isEntityType next)|];
      rewrite Hpush, ?Hrest, ?Hrest'; reflexivity.
Qed.

End CodecProperties.

(** C6, with the token classes made explicit.  For every descriptor
    whose chain entries each have an entity-type token that is no verb
    name and optionally an id that is neither an entity-type token nor a
    verb name (the verb is optional and trailing), decoding its slug
    gives the descriptor back.  This holds for every table of
    entity-type tokens. *)
Theorem decode_encode_roundtrip
    (isEntityType : string -> bool) (d : Slug.NavigationDescriptor) :
  Slug.wellFormed isEntityType d = true ->
  Slug.decode isEntityType (Slug.encode d) = d.
Proof.
  destruct d as [entries v]. unfold Slug.wellFormed. simpl.
  apply decode_encode_chain.
Qed.

(** The descriptors that decoding produces are fixed by the round trip. *)
Lemma decode_encode_decode (isEntityType : string -> bool) segments :
  Slug.decode isEntityType (Slug.encode (Slug.decode isEntityType segments))
    = Slug.decode isEntityType segments.
Proof. by rewrite encode_decode. Qed.

(** Scenario C of the spec. *)
Example decode_scenario_C :
  Slug.decode Slug.isEntityTypeToken ["entities"; "abc123"; "ratings"; "create"]
    = {| Slug.chain := [Slug.Entity "entities" (Some "abc123");
                        Slug.Entity "ratings" None];
         Slug.verb := Some Slug.CREATE |}.
Proof. reflexivity. Qed.

(** The structure alone does not give the round trip: the entry below
    has an entity-type token and an id, but its id is a verb name; its
    slug is entities/create, which decodes to an entry without id and
    the verb create. *)
Lemma roundtrip_needs_id_tokens :
  let d := {| Slug.chain := [Slug.Entity "entities" (Some "create")];
              Slug.verb := None |} in
  Slug.wellFormedByStructure Slug.isEntityTypeToken d = true
  /\ Slug.encode d = ["entities"; "create"]
  /\ Slug.decode Slug.isEntityTypeToken (Slug.encode d)
     = {| Slug.chain := [Slug.Entity "entities" None];
          Slug.verb := Some Slug.CREATE |}
  /\ Slug.decode Slug.isEntityTypeToken (Slug.encode d) <> d.
Proof. repeat split. discriminate. Qed.

(** ** The submission workflow *)

Section WorkflowProperties.
Import EntryForm.

Context {SearchEntry : Type}.
Variable convertNewEntryToSearchEntry :
  option SearchEntryID -> gmap string JValue -> SearchEntry.
Variable server : Server.
Variable redirectToEntityDetail :
  gmap string RouterQueryParam -> option SearchEntryID -> Slug.Category ->
  nat -> list string -> string * gmap string RouterQueryParam.

Abbreviation onFinish :=
  (onFinish convertNewEntryToSearchEntry server redirectToEntityDetail).
Abbreviation HandlerModal :=
  (HandlerModal convertNewEntryToSearchEntry server redirectToEntityDetail).
Abbreviation createNewEntry :=
  (createNewEntry convertNewEntryToSearchEntry server redirectToEntityDetail).
Abbreviation createOrEditEntry :=
  (createOrEditEntry (SearchEntry := SearchEntry) server).
Abbreviation checkDuplicateEntries :=
  (checkDuplicateEntries (SearchEntry := SearchEntry) server).
Abbreviation World := (World (SearchEntry := SearchEntry)).

Ltac run :=
  cbv beta iota zeta delta
    [EntryForm.onFinish EntryForm.HandlerModal EntryForm.createNewEntry
     EntryForm.createOrEditEntry EntryForm.onCreate EntryForm.onEdit
     EntryForm.addEntryToStateOnCreate EntryForm.addEntryToState
     EntryForm.redirectToEntry EntryForm.checkDuplicateEntries
     EntryForm.bind EntryForm.ret EntryForm.request EntryForm.log
     EntryForm.setFormData EntryForm.setShowModal EntryForm.setDuplicate
     EntryForm.dispatchPrependEntry EntryForm.routerReplace
     EntryForm.effectsSince
     EntryForm.formData EntryForm.showModal EntryForm.duplicate
     EntryForm.entries EntryForm.effects fst snd].

Lemma drop_length_app {A} (l k : list A) : drop (length l) (l ++ k) = k.
Proof. by rewrite drop_app_length. Qed.

(** What a commit does, step by step: the request, then on a create the
    store action, then the redirect. *)
Lemma createNewEntry_create entry router entryId w newId :
  createdId server (adaptedEntry entry) = Some newId ->
  createNewEntry entry router false entryId w =
    (Resolved tt,
     {| formData := formData w; showModal := showModal w;
        duplicate := duplicate w;
        entries :=
          convertNewEntryToSearchEntry (Some newId) (adaptedEntry entry)
            :: entries w;
        effects :=
          effects w ++
            [AxiosRequest POST Endpoints.postEntries (adaptedEntry entry);
             DispatchPrependEntry
               (convertNewEntryToSearchEntry (Some newId)
                  (adaptedEntry entry));
             RouterReplace
               (redirectToEntityDetail router (Some newId)
                  Slug.INITIATIVE 2 ["pinLat"; "pinLng"]).1
               (redirectToEntityDetail router (Some newId)
                  Slug.INITIATIVE 2 ["pinLat"; "pinLng"]).2] |}).
Proof.
  intros Hid. run. fold (adaptedEntry entry). rewrite Hid.
  by rewrite <- !app_assoc.
Qed.

Lemma createNewEntry_edit entry router entryId w :
  updated server (Endpoints.postEntries +:+ "/" +:+ template entryId)
    (adaptedEntry entry) = Some tt ->
  createNewEntry entry router true entryId w =
    (Resolved tt,
     {| formData := formData w; showModal := showModal w;
        duplicate := duplicate w; entries := entries w;
        effects :=
          effects w ++
            [AxiosRequest PUT (Endpoints.postEntries +:+ "/" +:+ template entryId)
               (adaptedEntry entry);
             RouterReplace
               (redirectToEntityDetail router entryId
                  Slug.INITIATIVE 2 ["pinLat"; "pinLng"]).1
               (redirectToEntityDetail router entryId
                  Slug.INITIATIVE 2 ["pinLat"; "pinLng"]).2] |}).
Proof.
  intros Hput. run. fold (adaptedEntry entry). rewrite Hput.
  by rewrite <- !app_assoc.
Qed.

(** Whatever the server answers, the first effect of a commit is its
    create or edit request, carrying the adapted entry. *)
Lemma createNewEntry_first_effect entry router isEdit entryId w :
  exists method url rest,
    effects (createNewEntry entry router isEdit entryId w).2 =
      effects w ++ AxiosRequest method url (adaptedEntry entry) :: rest
    /\ isCommit (AxiosRequest (SearchEntry := SearchEntry)
                   method url (adaptedEntry entry)) = true
    /\ method = (if isEdit then PUT else POST).
Proof.
  destruct isEdit.
  - exists PUT, (Endpoints.postEntries +:+ "/" +:+ template entryId).
    run. fold (adaptedEntry entry).
    destruct (updated server _ _) as [[]|]; simpl;
      rewrite <- ?app_assoc; eauto.
  - exists POST, Endpoints.postEntries.
    run. fold (adaptedEntry entry).
    destruct (createdId server _) as [newId|]; simpl;
      rewrite <- ?app_assoc; eauto.
Qed.

(** C1.  A submission caches the raw payload, then sends the duplicate
    check, and these are its first two effects.  When candidates come
    back, they are handed to the confirmation list, the modal is shown and
    nothing else happens: the create or edit request is the first effect
    of the confirmation handler, which replays the cached payload.  When
    no candidate comes back, the create or edit request follows at once. *)
Theorem submission_checks_duplicates_first router isEdit entryId entry
    (w : World) :
  let w' := (onFinish router isEdit entryId entry w).2 in
  let check :=
    AxiosRequest POST Endpoints.checkForDuplicate (duplicatePayload entry) in
  exists rest,
    effects w' = effects w ++ SetFormData entry :: check :: rest
    /\ formData w' = entry
    /\ (forall candidates,
          duplicatesOf server (duplicatePayload entry) = Some candidates ->
          candidates <> [] ->
          rest = [SetShowModal true; SetDuplicate candidates]
          /\ filter (fun e => isCommit e = true) rest = []
          /\ showModal w' = true
          /\ duplicate w' = candidates
          /\ entries w' = entries w
          /\ exists method url rest',
               effects (HandlerModal router isEdit entryId w').2 =
                 effects w' ++ AxiosRequest method url (adaptedEntry entry)
                   :: rest'
               /\ isCommit (AxiosRequest (SearchEntry := SearchEntry)
                              method url (adaptedEntry entry)) = true)
    /\ (duplicatesOf server (duplicatePayload entry) = Some [] ->
        exists method url rest',
          rest = AxiosRequest method url (adaptedEntry entry) :: rest'
          /\ isCommit (AxiosRequest (SearchEntry := SearchEntry)
                         method url (adaptedEntry entry)) = true)
    /\ (duplicatesOf server (duplicatePayload entry) = None -> rest = []).
Proof.
  intros w' check.
  set (w1 := {| formData := entry; showModal := showModal w;
                duplicate := duplicate w; entries := entries w;
                effects := (effects w ++ [SetFormData entry]) ++ [check] |}).
  destruct (duplicatesOf server (duplicatePayload entry))
    as [[|c candidates]|] eqn:Hdup.
  - (* no candidate: the commit follows *)
    assert (Hw' : w' = (createNewEntry entry router isEdit entryId w1).2).
    { subst w' w1 check. unfold EntryForm.onFinish, bind, setFormData,
        checkDuplicateEntries, request, log. simpl. by rewrite Hdup. }
    destruct (createNewEntry_first_effect entry router isEdit entryId w1)
      as (method & url & rest' & Heff & Hcommit & _).
    exists (AxiosRequest method url (adaptedEntry entry) :: rest').
    rewrite Hw', Heff. subst w1; simpl. rewrite <- !app_assoc. simpl.
    split_and!; [done| |by intros ? [= <-] ?|by eauto|done].
    assert (Hfd : forall e r i id (x : World),
               formData (EntryForm.createNewEntry convertNewEntryToSearchEntry
                           server redirectToEntityDetail e r i id x).2
               = formData x).
    { intros e r [] id x; run.
      - by destruct (updated server _ _) as [[]|].
      - by destruct (createdId server _). }
    by rewrite Hfd.
  - (* candidates: the modal *)
    exists [SetShowModal true; SetDuplicate (c :: candidates)].
    subst w' check. unfold EntryForm.onFinish, bind, setFormData,
      checkDuplicateEntries, request, log, setShowModal, setDuplicate.
    simpl. rewrite Hdup. simpl. rewrite <- !app_assoc. simpl.
    split_and!; [done|done| |done|done].
    intros ? [= <-] _. split_and!; try done.
    unfold EntryForm.HandlerModal. simpl.
    match goal with
    | |- context [EntryForm.createNewEntry _ _ _ _ _ _ _ ?x] =>
        destruct (createNewEntry_first_effect entry router isEdit entryId x)
          as (method & url & rest' & Heff & Hcommit & _)
    end.
    exists method, url, rest'. rewrite Heff. simpl.
    by rewrite <- !app_assoc.
  - (* the check itself fails *)
    exists []. subst w' check. unfold EntryForm.onFinish, bind, setFormData,
      checkDuplicateEntries, request, log. simpl. rewrite Hdup. simpl.
    rewrite <- !app_assoc. by split_and!.
Qed.


(** C3.  A create issues one POST of the adapted entry, takes the id the
    server returns, prepends the converted entry to the result collection
    and redirects to that id; an edit issues one PUT to the existing id,
    leaves the collection as it is and redirects to the existing id.  The
    commit performs no other effect. *)
Theorem commit_create_or_edit router entry (w : World) :
  let body := adaptedEntry entry in
  (forall entryId newId,
      createdId server body = Some newId ->
      let w' := (createNewEntry entry router false entryId w).2 in
      let target :=
        redirectToEntityDetail router (Some newId) Slug.INITIATIVE 2
          ["pinLat"; "pinLng"] in
      effectsSince w w' =
        [AxiosRequest POST "/entries" body;
         DispatchPrependEntry
           (convertNewEntryToSearchEntry (Some newId) body);
         RouterReplace target.1 target.2]
      /\ entries w' =
           convertNewEntryToSearchEntry (Some newId) body :: entries w)
  /\ (forall id,
        updated server ("/entries/" +:+ id) body = Some tt ->
        let w' := (createNewEntry entry router true (Some id) w).2 in
        let target :=
          redirectToEntityDetail router (Some id) Slug.INITIATIVE 2
            ["pinLat"; "pinLng"] in
        effectsSince w w' =
          [AxiosRequest PUT ("/entries/" +:+ id) body;
           RouterReplace target.1 target.2]
        /\ entries w' = entries w).
Proof.
  intros body. split.
  - intros entryId newId Hid w' target. subst w'.
    rewrite (createNewEntry_create _ _ _ _ _ Hid).
    unfold effectsSince. simpl. by rewrite drop_length_app.
  - intros id Hput w' target. subst w'.
    rewrite (createNewEntry_edit entry router (Some id) w Hput).
    unfold effectsSince. simpl. by rewrite drop_length_app.
Qed.

Lemma lookup_duplicatePayload entry k :
  duplicatePayload entry !! k =
    if bool_decide (k ∈ ["title"; "description"; "city"; "zip"; "country";
                         "state"; "street"; "lat"; "lng"; "telephone";
                         "email"])
    then Some (prop entry k)
    else if bool_decide (k ∈ ["id"; "homepage"; "image_url";
                              "image_link_url"; "opening_hours"; "contact"])
    then Some JNull
    else if bool_decide (k ∈ ["tags"; "links"; "categories"])
    then Some (JArr [])
    else if bool_decide (k = "version") then Some (JNum 1)
    else if bool_decide (k = "license") then
      Some match prop entry "license" with
           | JArr items => JStr (join "" items)
           | other => other
           end
    else None.
Proof.
  unfold duplicatePayload. cbn [list_to_map foldr fst snd].
  repeat (rewrite lookup_insert; case_decide; [subst k; reflexivity|]).
  rewrite lookup_empty.
  repeat (rewrite bool_decide_eq_false_2;
          [|solve [rewrite ?elem_of_cons, ?elem_of_nil;
                   intuition congruence]]).
  reflexivity.
Qed.

(** C7, as the code has it.  The duplicate check posts a payload that
    carries the entry's title, description, city, zip, country, state,
    street, lat, lng, telephone and email as they are and its license (an
    array joined into one string); [id] is null, and every other field is
    a fixed placeholder: homepage, image_url, image_link_url,
    opening_hours and contact are null, tags, links and categories are
    empty, version is 1.  Nothing else of the entry reaches the payload. *)
Theorem duplicate_check_payload entry (w : World) :
  let payload := duplicatePayload entry in
  effectsSince w (checkDuplicateEntries entry w).2 =
    [AxiosRequest POST "/entries/duplicates" payload]
  /\ (forall k,
        k ∈ ["title"; "description"; "city"; "zip"; "country"; "state";
             "street"; "lat"; "lng"; "telephone"; "email"] ->
        payload !! k = Some (prop entry k))
  /\ payload !! "id" = Some JNull
  /\ payload !! "license" =
       Some match prop entry "license" with
            | JArr items => JStr (join "" items)
            | other => other
            end
  /\ (forall k,
        k ∈ ["homepage"; "image_url"; "image_link_url"; "opening_hours";
             "contact"] ->
        payload !! k = Some JNull)
  /\ (forall k, k ∈ ["tags"; "links"; "categories"] ->
        payload !! k = Some (JArr []))
  /\ payload !! "version" = Some (JNum 1)
  /\ (forall entry',
        (forall k,
            k ∈ ["title"; "description"; "city"; "zip"; "country"; "state";
                 "street"; "lat"; "lng"; "telephone"; "email"; "license"] ->
            entry' !! k = entry !! k) ->
        duplicatePayload entry' = payload).
Proof.
  intros payload. subst payload. split_and!.
  - run. by rewrite drop_length_app.
  - intros k Hk. rewrite lookup_duplicatePayload.
    by rewrite bool_decide_eq_true_2.
  - by rewrite lookup_duplicatePayload.
  - by rewrite lookup_duplicatePayload.
  - intros k Hk. rewrite lookup_duplicatePayload.
    repeat (apply elem_of_cons in Hk as [->|Hk]; [reflexivity|]).
    by apply elem_of_nil in Hk.
  - intros k Hk. rewrite lookup_duplicatePayload.
    repeat (apply elem_of_cons in Hk as [->|Hk]; [reflexivity|]).
    by apply elem_of_nil in Hk.
  - by rewrite lookup_duplicatePayload.
  - intros entry' Hagree. apply map_eq. intros k.
    rewrite !lookup_duplicatePayload.
    assert (Hprop : forall k',
               k' ∈ ["title"; "description"; "city"; "zip"; "country";
                     "state"; "street"; "lat"; "lng"; "telephone"; "email";
                     "license"] -> prop entry' k' = prop entry k')
      by (intros k' Hk'; unfold prop; by rewrite Hagree).
    rewrite (Hprop "license")
      by (rewrite ?elem_of_cons; intuition congruence).
    case_bool_decide as Hk; [|done].
    rewrite Hprop; [done|].
    rewrite ?elem_of_cons in Hk. rewrite ?elem_of_cons. intuition congruence.
Qed.

End WorkflowProperties.

(** The payload of the duplicate check is not made of the identity,
    location and contact fields alone: two submissions of the edit form
    that agree on all of them, and pass the rules of the form, are told
    apart by the license of the entry they edit. *)
Lemma duplicate_payload_carries_license :
  let entry1 := MoreSamples.editSubmission "CC0-1.0" in
  let entry2 := MoreSamples.editSubmission "ODbL-1.0" in
  (forall k,
     k ∈ EntryForm.identityFields ++ EntryForm.locationFields
           ++ EntryForm.contactFields ->
     entry1 !! k = entry2 !! k)
  /\ EntryForm.duplicatePayload entry1 !! "license" = Some (JStr "CC0-1.0")
  /\ EntryForm.duplicatePayload entry2 !! "license" = Some (JStr "ODbL-1.0")
  /\ EntryForm.duplicatePayload entry1 <> EntryForm.duplicatePayload entry2.
Proof.
  split_and!.
  - intros k Hk. simpl in Hk.
    repeat (apply elem_of_cons in Hk as [->|Hk]; [reflexivity|]).
    by apply elem_of_nil in Hk.
  - reflexivity.
  - reflexivity.
  - intros Heq. apply (f_equal (fun m => m !! "license")) in Heq.
    vm_compute in Heq. discriminate.
Qed.

(** ** Null renders *)

(** C9.  When the request for the entry to edit has failed, the entry form
    renders nothing; when the request for the ratings has failed, the
    ratings component renders nothing.  Neither throws. *)
Theorem failed_request_renders_null
    (categoryValue : Slug.Category -> JValue) (category : Slug.Category)
    (verb : Slug.SlugVerb)
    (entriesResponse : Response (list (gmap string JValue)))
    (ratingsIds : list string)
    (ratingsResponse : Response (list EntityRatings.Rating)) :
  (is_Some (error entriesResponse) ->
     EntryForm.render categoryValue category verb entriesResponse = None)
  /\ (is_Some (error ratingsResponse) ->
        EntityRatings.render ratingsIds ratingsResponse
          = EntityRatings.Returned None).
Proof.
  split.
  - intros [e He]. unfold EntryForm.render. by rewrite He.
  - intros [e He]. unfold EntityRatings.render. rewrite He.
    by destruct (negb (EntityRatings.hasRatings ratingsIds)).
Qed.

(** C10.  Without rating ids the ratings component renders nothing and
    hands no request to the hook, so nothing is fetched. *)
Theorem no_ratings_no_request
    (ratingsResponse : Response (list EntityRatings.Rating)) :
  EntityRatings.render [] ratingsResponse = EntityRatings.Returned None
  /\ EntityRatings.ratingsRequest [] = None
  /\ EntityRatings.fetched (EntityRatings.ratingsRequest []) = [].
Proof. by split_and!. Qed.

(** ** The properties on the sample data *)

Lemma submission_checks_duplicates_first_witness :
  EntryForm.duplicatesOf Samples.duplicatesServer
    (EntryForm.duplicatePayload Samples.newEntry)
    = Some [Samples.candidate1; Samples.candidate2]
  /\ let w' :=
       (EntryForm.onFinish Samples.asSearchEntry Samples.duplicatesServer
         MoreSamples.toDetailView
          Samples.createQuery false None Samples.newEntry
          Samples.freshWorld).2 in
     EntryForm.duplicate w' = [Samples.candidate1; Samples.candidate2]
     /\ EntryForm.showModal w' = true
     /\ EntryForm.effects w' =
          [EntryForm.SetFormData Samples.newEntry;
           EntryForm.AxiosRequest EntryForm.POST "/entries/duplicates"
             (EntryForm.duplicatePayload Samples.newEntry);
           EntryForm.SetShowModal true;
           EntryForm.SetDuplicate [Samples.candidate1; Samples.candidate2]].
Proof.
  split; [reflexivity|].
  destruct (submission_checks_duplicates_first Samples.asSearchEntry
              Samples.duplicatesServer
                MoreSamples.toDetailView Samples.createQuery false None
              Samples.newEntry Samples.freshWorld)
    as (rest & Heff & _ & Hdup & _).
  destruct (Hdup [Samples.candidate1; Samples.candidate2])
    as (Hrest & _ & Hshow & Hcands & _); [reflexivity|discriminate|].
  split; [exact Hcands|]. split; [exact Hshow|].
  rewrite Heff, Hrest. reflexivity.
Defined.


Lemma commit_create_or_edit_witness :
  EntryForm.createdId Samples.quietServer (adaptedEntry Samples.newEntry)
    = Some "7"
  /\ EntryForm.entries
       (EntryForm.createNewEntry Samples.asSearchEntry Samples.quietServer
         MoreSamples.toDetailView
          Samples.newEntry Samples.createQuery false None
          Samples.freshWorld).2
     = [(Some "7", adaptedEntry Samples.newEntry)].
Proof.
  split; [reflexivity|].
  destruct (commit_create_or_edit Samples.asSearchEntry Samples.quietServer
    MoreSamples.toDetailView
              Samples.createQuery Samples.newEntry Samples.freshWorld)
    as [Hcreate _].
  destruct (Hcreate None "7") as [_ Hentries]; [reflexivity|].
  exact Hentries.
Defined.

Lemma thread_root_and_replies_witness :
  EntityRatings.comments Samples.fairness1 <> []
  /\ exists rootComment,
       EntityRatings.comments Samples.fairness1 !! 0%nat = Some rootComment
       /\ EntityRatings.thread Samples.fairness1
          = (Some rootComment,
             drop 1 (EntityRatings.comments Samples.fairness1))
       /\ (forall i,
             (EntityRatings.thread Samples.fairness1).2 !! i
             = EntityRatings.comments Samples.fairness1 !! S i)
       /\ EntityRatings.renderRating Samples.fairness1 =
            Some {| EntityRatings.root := rootComment;
                    EntityRatings.rootSource :=
                      EntityRatings.source Samples.fairness1;
                    EntityRatings.replies :=
                      drop 1 (EntityRatings.comments Samples.fairness1) |}.
Proof.
  split; [discriminate|].
  apply (thread_root_and_replies Samples.fairness1). discriminate.
Defined.

Lemma group_stable_and_sorted_witness :
  [Samples.diversity1; Samples.fairness1; Samples.fairness2]
    ≡ₚ [Samples.fairness1; Samples.diversity1; Samples.fairness2]
  /\ EntityRatings.sortedContexts
       [Samples.diversity1; Samples.fairness1; Samples.fairness2]
     = EntityRatings.sortedContexts
         [Samples.fairness1; Samples.diversity1; Samples.fairness2]
  /\ EntityRatings.get
       (EntityRatings.groupedRatings
          [Samples.diversity1; Samples.fairness1; Samples.fairness2])
       "fairness"
     = EntityRatings.get
         (EntityRatings.groupedRatings
            [Samples.fairness1; Samples.diversity1; Samples.fairness2])
         "fairness".
Proof.
  assert (Hp : [Samples.diversity1; Samples.fairness1; Samples.fairness2]
                 ≡ₚ [Samples.fairness1; Samples.diversity1; Samples.fairness2])
    by apply Permutation_swap.
  split; [exact Hp|].
  destruct (group_stable_and_sorted
              [Samples.fairness1; Samples.diversity1; Samples.fairness2])
    as (_ & _ & _ & Hperm).
  destruct (Hperm _ Hp) as [Hsorted Hgroup].
  split; [exact Hsorted|].
  apply Hgroup. reflexivity.
Defined.

Lemma decode_encode_roundtrip_witness :
  let d :=
    {| Slug.chain := [Slug.Entity "entities" (Some "abc123");
                      Slug.Entity "ratings" None];
       Slug.verb := Some Slug.CREATE |} in
  Slug.wellFormed Slug.isEntityTypeToken d = true
  /\ Slug.decode Slug.isEntityTypeToken (Slug.encode d) = d.
Proof.
  split; [reflexivity|].
  apply decode_encode_roundtrip. reflexivity.
Defined.

Lemma duplicate_check_payload_witness :
  ("telephone" ∈ ["title"; "description"; "city"; "zip"; "country";
                  "state"; "street"; "lat"; "lng"; "telephone"; "email"])
  /\ prop MoreSamples.createSubmission "telephone" = JStr "+493022732152"
  /\ EntryForm.duplicatePayload MoreSamples.createSubmission !! "telephone"
     = Some (prop MoreSamples.createSubmission "telephone")
  /\ EntryForm.duplicatePayload MoreSamples.createSubmission !! "license"
     = Some (JStr "CC0-1.0").
Proof.
  assert (Hin : "telephone" ∈ ["title"; "description"; "city"; "zip";
                               "country"; "state"; "street"; "lat"; "lng";
                               "telephone"; "email"])
    by (rewrite !elem_of_cons; do 9 right; left; reflexivity).
  split; [exact Hin|]. split; [reflexivity|].
  destruct (duplicate_check_payload Samples.duplicatesServer
              MoreSamples.createSubmission Samples.freshWorld)
    as (_ & Hcopied & _ & Hlicense & _).
  split; [exact (Hcopied "telephone" Hin)|].
  rewrite Hlicense. reflexivity.
Defined.

Lemma failed_request_renders_null_witness :
  is_Some (error (Samples.failed (A := list (gmap string JValue))))
  /\ EntryForm.render (fun _ => JStr "initiative") Slug.INITIATIVE Slug.EDIT
       Samples.failed = None
  /\ EntityRatings.render ["r1"; "r2"] Samples.failed
     = EntityRatings.Returned None.
Proof.
  destruct (failed_request_renders_null (fun _ => JStr "initiative")
              Slug.INITIATIVE Slug.EDIT Samples.failed ["r1"; "r2"]
              Samples.failed) as [Hform Hratings].
  split; [by eexists|].
  split; [apply Hform | apply Hratings]; by eexists.
Defined.

(** * Further properties of the sources *)

(** ** The workflow when requests fail, and over several actions *)

Section SessionProperties.
Import EntryForm.

Context {SearchEntry : Type}.
Variable convertNewEntryToSearchEntry :
  option SearchEntryID -> gmap string JValue -> SearchEntry.
Variable server : Server.
Variable redirectToEntityDetail :
  gmap string RouterQueryParam -> option SearchEntryID -> Slug.Category ->
  nat -> list string -> string * gmap string RouterQueryParam.
Variable router : gmap string RouterQueryParam.
Variable isEdit : bool.
Variable entryId : option SearchEntryID.

Abbreviation onFinish :=
  (onFinish convertNewEntryToSearchEntry server redirectToEntityDetail
     router isEdit entryId).
Abbreviation HandlerModal :=
  (HandlerModal convertNewEntryToSearchEntry server redirectToEntityDetail
     router isEdit entryId).
Abbreviation createNewEntry entry :=
  (createNewEntry convertNewEntryToSearchEntry server redirectToEntityDetail
     entry router isEdit entryId).
Abbreviation World := (World (SearchEntry := SearchEntry)).
Abbreviation Effect := (Effect (SearchEntry := SearchEntry)).
Abbreviation run :=
  (Session.run convertNewEntryToSearchEntry server redirectToEntityDetail
     router isEdit entryId).
Abbreviation step :=
  (Session.step convertNewEntryToSearchEntry server redirectToEntityDetail
     router isEdit entryId).

(** The request of a commit and the answer to it. *)
Abbreviation commitRequest entry :=
  (if isEdit
   then AxiosRequest (SearchEntry := SearchEntry) PUT
          (Endpoints.postEntries +:+ "/" +:+ template entryId)
          (adaptedEntry entry)
   else AxiosRequest POST Endpoints.postEntries (adaptedEntry entry)).
Abbreviation commitAnswer entry :=
  (if isEdit
   then (fun _ => entryId)
          <$> updated server
                (Endpoints.postEntries +:+ "/" +:+ template entryId)
                (adaptedEntry entry)
   else Some <$> createdId server (adaptedEntry entry)).

Ltac run_all :=
  cbv beta iota zeta delta
    [EntryForm.onFinish EntryForm.HandlerModal EntryForm.createNewEntry
     EntryForm.createOrEditEntry EntryForm.onCreate EntryForm.onEdit
     EntryForm.addEntryToStateOnCreate EntryForm.addEntryToState
     EntryForm.redirectToEntry EntryForm.checkDuplicateEntries
     EntryForm.bind EntryForm.ret EntryForm.request EntryForm.log
     EntryForm.setFormData EntryForm.setShowModal EntryForm.setDuplicate
     EntryForm.dispatchPrependEntry EntryForm.routerReplace
     EntryForm.effectsSince
     EntryForm.formData EntryForm.showModal EntryForm.duplicate
     EntryForm.entries EntryForm.effects fst snd].

(** A commit in one equation: the request always goes out; what follows
    depends on the answer alone. *)
Lemma createNewEntry_eq entry (w : World) :
  createNewEntry entry w =
    match commitAnswer entry with
    | None => (Rejected, log (commitRequest entry) w)
    | Some id =>
        let target :=
          redirectToEntityDetail router id Slug.INITIATIVE 2
            ["pinLat"; "pinLng"] in
        (Resolved tt,
         {| formData := formData w; showModal := showModal w;
            duplicate := duplicate w;
            entries :=
              (if isEdit then []
               else [convertNewEntryToSearchEntry id (adaptedEntry entry)])
              ++ entries w;
            effects :=
              effects w ++
                commitRequest entry
                :: (if isEdit then []
                    else [DispatchPrependEntry
                            (convertNewEntryToSearchEntry id
                               (adaptedEntry entry))])
                ++ [RouterReplace target.1 target.2] |})
    end.
Proof.
  destruct isEdit; run_all; fold (adaptedEntry entry).
  - destruct (updated server _ _) as [[]|]; simpl; [|done].
    by rewrite <- !app_assoc.
  - destruct (createdId server _) as [newId|]; simpl; [|done].
    by rewrite <- !app_assoc.
Qed.

(** X1.  When the create or edit request is rejected, the commit is
    rejected and has done nothing but send the request: nothing is
    prepended, nothing is redirected, the component state is as before.
    A submission that found no duplicate then ends rejected with the
    submitted payload cached and the collection unchanged. *)
Theorem rejected_commit_changes_nothing entry (w : World) :
  commitAnswer entry = None ->
  createNewEntry entry w = (Rejected, log (commitRequest entry) w)
  /\ (duplicatesOf server (duplicatePayload entry) = Some [] ->
      let result := onFinish entry w in
      result.1 = Rejected
      /\ effectsSince w result.2 =
           [SetFormData entry;
            AxiosRequest POST Endpoints.checkForDuplicate
              (duplicatePayload entry);
            commitRequest entry]
      /\ formData result.2 = entry
      /\ entries result.2 = entries w
      /\ showModal result.2 = showModal w).
Proof.
  intros Hfail. split.
  - by rewrite createNewEntry_eq, Hfail.
  - intros Hdup result. subst result.
    unfold EntryForm.onFinish, bind, setFormData, checkDuplicateEntries,
      request. simpl. rewrite Hdup. simpl.
    rewrite createNewEntry_eq, Hfail. unfold effectsSince, log. simpl.
    rewrite <- !app_assoc, drop_app_length. done.
Qed.

(** X2.  Confirming in the modal replays the submission: after a
    submission that found duplicates, the confirmation performs the
    effects and leaves the collection that a commit of the submitted
    payload would have given at once.  The handler itself returns
    undefined whatever the commit's outcome: a rejected commit is not
    passed on to the modal. *)
Theorem confirmation_replays_submission entry candidates (w : World) :
  duplicatesOf server (duplicatePayload entry) = Some candidates ->
  candidates <> [] ->
  let w1 := (onFinish entry w).2 in
  (HandlerModal w1).1 = Resolved tt
  /\ effectsSince w1 (HandlerModal w1).2
     = effectsSince w (createNewEntry entry w).2
  /\ entries (HandlerModal w1).2 = entries (createNewEntry entry w).2
  /\ formData (HandlerModal w1).2 = entry.
Proof.
  intros Hdup Hne w1.
  assert (Hw1 : w1 =
    {| formData := entry; showModal := true; duplicate := candidates;
       entries := entries w;
       effects := effects w ++
         [SetFormData entry;
          AxiosRequest POST Endpoints.checkForDuplicate
            (duplicatePayload entry);
          SetShowModal true; SetDuplicate candidates] |}).
  { subst w1. unfold EntryForm.onFinish, bind, setFormData,
      checkDuplicateEntries, request, setShowModal, setDuplicate, log.
    simpl. rewrite Hdup. destruct candidates; [done|]. simpl.
    by rewrite <- !app_assoc. }
  rewrite Hw1. unfold EntryForm.HandlerModal. cbn [formData fst snd].
  rewrite !createNewEntry_eq.
  destruct (commitAnswer entry) as [id|]; unfold effectsSince, log; simpl;
    by rewrite !drop_app_length.
Qed.

Lemma isCommit_not_check (e : Effect) :
  isCommit e = true -> Session.isDuplicateCheck e = false.
Proof.
  destruct e as [| | |[] url body| |]; simpl; try done.
  by intros ->%String.eqb_eq.
Qed.

Lemma commitsChecked_true (l : list Effect) :
  Session.commitsChecked true l = true.
Proof.
  induction l as [|e l IH]; simpl; [done|]. by destruct (isCommit e).
Qed.

Lemma commitsChecked_app seen (l k : list Effect) :
  Session.commitsChecked seen (l ++ k) =
    Session.commitsChecked seen l
    && Session.commitsChecked (seen || existsb Session.isDuplicateCheck l) k.
Proof.
  revert seen. induction l as [|e l IH]; intros seen; simpl.
  - by rewrite orb_false_r.
  - destruct (isCommit e) eqn:He.
    + rewrite (isCommit_not_check _ He), IH. simpl. by rewrite andb_assoc.
    + by rewrite IH, orb_assoc.
Qed.

(** What the boolean check says: before every create or edit request of
    the log there is a duplicate check. *)
Lemma commitsChecked_spec seen (l pre post : list Effect) e :
  Session.commitsChecked seen l = true ->
  l = pre ++ e :: post -> isCommit e = true ->
  seen = true \/ exists c, c ∈ pre /\ Session.isDuplicateCheck c = true.
Proof.
  revert seen l. induction pre as [|p pre IH]; intros seen l Hl -> He.
  - simpl in Hl. rewrite He in Hl. apply andb_prop in Hl as [-> _]. by left.
  - simpl in Hl. destruct (isCommit p).
    + apply andb_prop in Hl as [_ Hl].
      destruct (IH _ _ Hl eq_refl He) as [?|(c & Hc & ?)]; [by left|].
      right. exists c. split; [by right|done].
    + destruct (IH _ _ Hl eq_refl He) as [Hs|(c & Hc & ?)].
      * apply orb_prop in Hs as [?|?]; [by left|].
        right. exists p. split; [by left|done].
      * right. exists c. split; [by right|done].
Qed.

(** What one enabled action keeps. *)
Lemma step_invariant a (w : World) :
  Session.enabled a w = true ->
  Session.commitsChecked false (effects w) = true ->
  (showModal w = true ->
     existsb Session.isDuplicateCheck (effects w) = true) ->
  Session.commitsChecked false (effects (step a w)) = true
  /\ (showModal (step a w) = true ->
        existsb Session.isDuplicateCheck (effects (step a w)) = true).
Proof.
  intros Hen Hlog Hmodal. destruct a as [entry|]; simpl in *.
  - unfold EntryForm.onFinish, bind, setFormData, checkDuplicateEntries,
      request. simpl.
    destruct (duplicatesOf server (duplicatePayload entry))
      as [[|c candidates]|]; simpl.
    + rewrite createNewEntry_eq.
      destruct (commitAnswer entry) as [id|]; unfold log; simpl;
        rewrite <- !app_assoc; simpl;
        rewrite commitsChecked_app, Hlog, existsb_app; simpl;
        rewrite ?orb_true_r, ?commitsChecked_true;
        (split; [by destruct isEdit|done]).
    + unfold setShowModal, setDuplicate, log. simpl.
      rewrite <- !app_assoc. simpl.
      rewrite commitsChecked_app, Hlog, existsb_app. simpl.
      by rewrite !orb_true_r.
    + unfold log. simpl. rewrite <- !app_assoc. simpl.
      rewrite commitsChecked_app, Hlog, existsb_app.
      simpl. by rewrite !orb_true_r.
  - specialize (Hmodal Hen).
    unfold EntryForm.HandlerModal. cbn [fst snd].
    rewrite createNewEntry_eq.
    destruct (commitAnswer (formData w)) as [id|]; unfold log;
      cbn [fst snd effects showModal];
      rewrite commitsChecked_app, Hlog, existsb_app, Hmodal, orb_true_r,
        commitsChecked_true; done.
Qed.

Lemma run_invariant actions (w w' : World) :
  run actions w = Some w' ->
  Session.commitsChecked false (effects w) = true ->
  (showModal w = true ->
     existsb Session.isDuplicateCheck (effects w) = true) ->
  Session.commitsChecked false (effects w') = true
  /\ (showModal w' = true ->
        existsb Session.isDuplicateCheck (effects w') = true).
Proof.
  revert w. induction actions as [|a actions IH]; intros w; simpl.
  - by intros [= <-].
  - destruct (Session.enabled a w) eqn:Hen; [|done].
    intros Hrun Hlog Hmodal.
    destruct (step_invariant a w Hen Hlog Hmodal) as [Hlog' Hmodal'].
    by apply (IH _ Hrun).
Qed.

(** X3.  From a freshly mounted form, whatever the user submits and
    confirms (a confirmation being possible only while the modal is
    shown) and whatever the server answers, every create or edit request
    in the log has a duplicate check before it. *)
Theorem no_commit_without_duplicate_check actions (w w' : World) :
  effects w = [] -> showModal w = false ->
  run actions w = Some w' ->
  forall pre e post,
    effects w' = pre ++ e :: post -> isCommit e = true ->
    exists c, c ∈ pre /\ Session.isDuplicateCheck c = true.
Proof.
  intros Heff Hshow Hrun pre e post Hsplit He.
  destruct (run_invariant actions w w' Hrun) as [Hlog _].
  - by rewrite Heff.
  - by rewrite Hshow.
  - destruct (commitsChecked_spec _ _ _ _ _ Hlog Hsplit He); done.
Qed.

(** X5.  The result collection is only ever prepended to, and an edit
    form never changes it, over any sequence of actions. *)
Theorem collection_only_grows actions (w w' : World) :
  run actions w = Some w' ->
  exists added,
    entries w' = added ++ entries w
    /\ (isEdit = true -> added = []).
Proof.
  revert w. induction actions as [|a actions IH]; intros w; simpl.
  - intros [= <-]. by exists [].
  - destruct (Session.enabled a w); [|done]. intros Hrun.
    destruct (IH _ Hrun) as (added & Hadded & Hedit).
    assert (Hstep : exists added1,
               entries (step a w) = added1 ++ entries w
               /\ (isEdit = true -> added1 = [])).
    { destruct a as [entry|]; simpl.
      - unfold EntryForm.onFinish, bind, setFormData, checkDuplicateEntries,
          request. simpl.
        destruct (duplicatesOf server (duplicatePayload entry))
          as [[|c candidates]|]; simpl; [|by exists []..].
        rewrite createNewEntry_eq.
        destruct (commitAnswer entry) as [id|]; simpl; [|by exists []].
        eexists. split; [reflexivity|]. by intros ->.
      - unfold EntryForm.HandlerModal. rewrite createNewEntry_eq.
        destruct (commitAnswer (formData w)) as [id|]; simpl;
          [|by exists []].
        eexists. split; [reflexivity|]. by intros ->. }
    destruct Hstep as (added1 & Hadded1 & Hedit1).
    exists (added ++ added1). rewrite Hadded, Hadded1, app_assoc.
    split; [done|]. intros He. by rewrite Hedit, Hedit1.
Qed.

End SessionProperties.

(** ** What the entry form shows and fetches *)

(** X6.  Whenever the entry form is shown, the request has not failed
    and the initial value of [categories] is the category of the props,
    whatever the server sent; on an edit an entry was found, and the
    other initial values are those of the first entry found. *)
Theorem shown_form_initial_values
    (categoryValue : Slug.Category -> JValue) (category : Slug.Category)
    (verb : Slug.SlugVerb)
    (response : Response (list (gmap string JValue)))
    (initialValues : gmap string JValue) :
  EntryForm.render categoryValue category verb response
    = Some (EntryForm.Form initialValues) ->
  error response = None
  /\ initialValues !! "categories" = Some (JArr [categoryValue category])
  /\ (verb = Slug.EDIT ->
      exists first others,
        data response = Some (first :: others)
        /\ forall k, k <> "categories" -> initialValues !! k = first !! k)
  /\ (data response = None ->
      initialValues = {[ "categories" := JArr [categoryValue category] ]}).
Proof.
  unfold EntryForm.render.
  destruct (error response); [done|].
  destruct (data response) as [[|first others]|], verb; simpl;
    try done; intros [= <-]; split_and!; try done;
    try apply lookup_insert_eq.
  - intros _. exists first, others. split; [done|].
    intros k Hk. by rewrite lookup_insert_ne.
Qed.

(** X7.  The create form fetches nothing.  The edit form fetches its
    entry and sends an [org_tag] exactly when the query has [org-tag] as
    one non-empty string: given twice (an array) or empty, it is null. *)
Theorem entry_fetched_only_on_edit
    (entryId : option EntryForm.SearchEntryID)
    (query : gmap string RouterQueryParam) :
  EntryFormData.entriesRequest Slug.CREATE entryId query = None
  /\ EntryFormData.entriesRequest Slug.EDIT entryId query
       = Some ("/entries/" +:+ template entryId, EntryFormData.orgTag query)
  /\ (forall s,
        EntryFormData.orgTag query = Some s <->
        query !! "org-tag" = Some (QString s) /\ s <> "")
  /\ (forall ss,
        query !! "org-tag" = Some (QArray ss) ->
        EntryFormData.orgTag query = None).
Proof.
  split_and!; [done|done| |].
  - intros s. unfold EntryFormData.orgTag.
    destruct (query !! "org-tag") as [[t|ss]|]; [|by split; [|intros []]..].
    destruct (String.eqb_spec t ""); split.
    + done.
    + intros [[= ->] ?]. done.
    + by intros [= ->].
    + by intros [[= ->] _].
  - intros ss Hq. unfold EntryFormData.orgTag. by rewrite Hq.
Qed.

(** ** The pin and the address fields *)

Section GeocodeProperties.

Variable getCityFromAddress : gmap string JValue -> JValue.

Lemma lookup_setFieldsValue_notin values fields k :
  k ∉ fields.*1 ->
  EntryFormData.setFieldsValue values fields !! k = values !! k.
Proof.
  unfold EntryFormData.setFieldsValue.
  revert values. induction fields as [|[k' v] fields IH]; intros values;
    simpl; [done|].
  intros [Hne Hk]%not_elem_of_cons. rewrite IH by done.
  by rewrite lookup_insert_ne.
Qed.

(** X8.  Resolving the address of the pin leaves every field of the form
    other than lat, lng, country, city, state, street and zip as the user
    has it, and a failed lookup leaves the whole form as it is.  On
    success lat and lng are the pin's, street is the road and zip the
    postcode of the address.  The duplicate check of the form therefore
    still carries the same title, description, telephone, email and
    license. *)
Theorem address_lookup_keeps_typed_fields
    (form : gmap string JValue) (newPoint : EntryFormData.Point)
    (place : option (gmap string JValue)) :
  let form' :=
    EntryFormData.setAddressDetails getCityFromAddress form newPoint place in
  (forall k,
      k ∉ ["lat"; "lng"; "country"; "city"; "state"; "street"; "zip"] ->
      form' !! k = form !! k)
  /\ (place = None -> form' = form)
  /\ (forall address,
        place = Some address ->
        form' !! "lat" = Some (EntryFormData.lat newPoint)
        /\ form' !! "lng" = Some (EntryFormData.lng newPoint)
        /\ form' !! "country" = Some (prop address "country")
        /\ form' !! "city" = Some (getCityFromAddress address)
        /\ form' !! "state" = Some (prop address "state")
        /\ form' !! "street" = Some (prop address "road")
        /\ form' !! "zip" = Some (prop address "postcode"))
  /\ (forall k,
        k ∈ ["title"; "description"; "telephone"; "email"; "license"] ->
        EntryForm.duplicatePayload form' !! k
          = EntryForm.duplicatePayload form !! k).
Proof.
  intros form'.
  assert (Hother : forall k,
             k ∉ ["lat"; "lng"; "country"; "city"; "state"; "street"; "zip"] ->
             form' !! k = form !! k).
  { intros k Hk. subst form'. destruct place as [address|]; [|done].
    by apply lookup_setFieldsValue_notin. }
  split_and!.
  - exact Hother.
  - by intros ->.
  - intros address ->. subst form'.
    unfold EntryFormData.setAddressDetails, EntryFormData.setFieldsValue.
    cbn [foldl fst snd].
    split_and!;
      repeat (first [by apply lookup_insert_eq
                    |rewrite lookup_insert_ne by done]).
  - intros k Hk. rewrite !lookup_duplicatePayload.
    assert (Hprop : forall k',
               k' ∈ ["title"; "description"; "telephone"; "email"; "license"] ->
               prop form' k' = prop form k').
    { intros k' Hk'. unfold prop. rewrite Hother; [done|].
      rewrite !elem_of_cons, elem_of_nil in Hk'.
      rewrite !not_elem_of_cons.
      destruct Hk' as [->|[->|[->|[->|[->|[]]]]]];
        split_and!; try done; apply not_elem_of_nil. }
    rewrite (Hprop "license") by (rewrite !elem_of_cons; tauto).
    rewrite !elem_of_cons, elem_of_nil in Hk.
    destruct Hk as [->|[->|[->|[->|[->|[]]]]]]; simpl;
      try (rewrite Hprop by (rewrite !elem_of_cons; tauto)); reflexivity.
Qed.

End GeocodeProperties.

(** ** The payload of the duplicate check *)

(** X9.  The payload of the duplicate check has the same 22 keys for
    every entry, fields that the entry lacks included, and its license is
    never an array. *)
Theorem duplicate_payload_shape (entry : gmap string JValue) :
  (forall k,
      is_Some (EntryForm.duplicatePayload entry !! k) <->
      k ∈ ["title"; "description"; "city"; "zip"; "country"; "state";
           "street"; "lat"; "lng"; "telephone"; "email"; "id"; "homepage";
           "tags"; "image_url"; "image_link_url"; "opening_hours"; "links";
           "version"; "contact"; "categories"; "license"])
  /\ size (EntryForm.duplicatePayload entry) = 22%nat
  /\ (forall items,
        EntryForm.duplicatePayload entry !! "license" <> Some (JArr items)).
Proof.
  split_and!.
  - intros k. rewrite lookup_duplicatePayload. split.
    + repeat case_bool_decide; try (by intros []);
        rewrite ?elem_of_cons in *; intros _; subst; tauto.
    + intros Hk. rewrite !elem_of_cons, elem_of_nil in Hk.
      repeat (destruct Hk as [->|Hk]; [by eexists|]). done.
  - unfold EntryForm.duplicatePayload. cbn [list_to_map foldr fst snd].
    repeat (rewrite map_size_insert_None;
            [|repeat (rewrite lookup_insert_ne by done);
              apply lookup_empty]).
    by rewrite map_size_empty.
  - intros items. rewrite lookup_duplicatePayload. simpl.
    by destruct (prop entry "license").
Qed.

(** X10.  For a license array of no or one string, as the checkbox group
    gives it, the duplicate check sends the very scalar that the license
    rule of the commit yields; with two strings it sends both run
    together, the rule only the first. *)
Theorem license_in_check_and_commit (entry : gmap string JValue) :
  (entry !! "license" = Some (JArr []) ->
     EntryForm.duplicatePayload entry !! "license"
       = Some (licenseRule (JArr [])))
  /\ (forall s,
        entry !! "license" = Some (JArr [JStr s]) ->
        EntryForm.duplicatePayload entry !! "license"
          = Some (licenseRule (JArr [JStr s])))
  /\ (forall s1 s2,
        entry !! "license" = Some (JArr [JStr s1; JStr s2]) ->
        EntryForm.duplicatePayload entry !! "license" = Some (JStr (s1 +:+ s2))
        /\ licenseRule (JArr [JStr s1; JStr s2]) = JStr s1).
Proof.
  split_and!.
  - intros H. rewrite lookup_duplicatePayload. unfold prop. by rewrite H.
  - intros s H. rewrite lookup_duplicatePayload. unfold prop. rewrite H.
    simpl. unfold join. simpl. done.
  - intros s1 s2 H. rewrite lookup_duplicatePayload. unfold prop. rewrite H.
    simpl. unfold join. simpl. done.
Qed.

(** ** The result card *)

Lemma sameCategory_eq a b : ResultCard.sameCategory a b = true <-> a = b.
Proof. destruct a, b; simpl; split; congruence. Qed.

(** X11.  The card throws exactly when no result type has the first
    category of the result as its id (so always when the result has no
    category).  When it returns, a result without tags has no body;
    otherwise the description shown is the prefix of the description (the
    empty one when it is undefined) of 70 code units, or all of it when
    it is shorter, and the tags shown are the first three, or all when
    there are fewer.  Only an event gets a time description. *)
Theorem card_body_is_cut
    (resultTypes : list ResultCard.ResultType)
    (eventDuration : ResultCard.SearchResult -> string)
    (searchResult : ResultCard.SearchResult) :
  let description := default [] (ResultCard.description searchResult) in
  (ResultCard.render resultTypes eventDuration searchResult = ResultCard.Threw
   <-> forall type,
         type ∈ resultTypes ->
         head (ResultCard.categories searchResult)
           <> Some (ResultCard.type_id type))
  /\ (forall card,
        ResultCard.render resultTypes eventDuration searchResult
          = ResultCard.Returned card ->
        (ResultCard.tags searchResult = None -> ResultCard.body card = None)
        /\ (forall allTags,
              ResultCard.tags searchResult = Some allTags ->
              exists shown shownTags,
                ResultCard.body card = Some (shown, shownTags)
                /\ shown `prefix_of` description
                /\ length shown = min 70 (length description)
                /\ shownTags `prefix_of` allTags
                /\ length shownTags = min 3 (length allTags))
        /\ (is_Some (ResultCard.timeDescription card) ->
            head (ResultCard.categories searchResult) = Some Slug.EVENT)).
Proof.
  intros description. unfold ResultCard.render. split.
  - destruct (ResultCard.categories searchResult) as [|first others]; simpl.
    { split; [by intros _ type _|done]. }
    destruct (List.find _ resultTypes) as [type|] eqn:Hfind.
    + split; [done|]. intros Hnone. exfalso.
      apply find_some in Hfind as [Hin Heq].
      apply sameCategory_eq in Heq.
      apply (Hnone type); [by apply list_elem_of_In|by rewrite Heq].
    + split; [|done]. intros _ type Hin [= Heq].
      apply list_elem_of_In in Hin.
      pose proof (find_none _ _ Hfind type Hin) as Hfalse. simpl in Hfalse.
      rewrite Heq in Hfalse.
      by rewrite (proj2 (sameCategory_eq _ _) eq_refl) in Hfalse.
  - intros card.
    destruct (ResultCard.categories searchResult) as [|first others];
      [done|]. simpl.
    destruct (List.find _ resultTypes) as [type|] eqn:Hfind; [|done].
    intros [= <-]. simpl. unfold ResultCard.cardBody.
    fold description. split_and!.
    + by intros ->.
    + intros allTags ->. eexists _, _. split; [reflexivity|].
      rewrite !length_take. split_and!; try done; apply prefix_take.
    + unfold ResultCard.getTimeDescriptionForEvent.
      apply find_some in Hfind as [_ Heq]. apply sameCategory_eq in Heq.
      destruct (ResultCard.sameCategory _ Slug.EVENT) eqn:He;
        [|by intros []].
      apply sameCategory_eq in He. intros _. congruence.
Qed.

(** ** The ratings as listed and rendered *)

Section RatingsListProperties.
Import EntityRatings.

Implicit Types (ratings : list Rating).

Lemma get_groupBy_default ratings c :
  default [] (get (groupBy ratings) c) = filter (fun r => context r = c) ratings.
Proof. rewrite get_groupBy. by destruct (filter _ ratings). Qed.

Lemma listedRatings_eq ratings :
  RatingsList.listedRatings ratings =
    sortedContexts ratings ≫=
      (fun c => filter (fun r => context r = c) ratings).
Proof.
  unfold RatingsList.listedRatings, sortedContexts, groupedRatings.
  cbv zeta. apply list_bind_ext; [|done].
  intros c. apply get_groupBy_default.
Qed.

(** Going through pairwise different contexts that cover the ratings
    meets every rating once. *)
Lemma bind_filter_Permutation (contexts : list string) ratings :
  NoDup contexts ->
  (forall r, r ∈ ratings -> context r ∈ contexts) ->
  contexts ≫= (fun c => filter (fun r => context r = c) ratings) ≡ₚ ratings.
Proof.
  intros Hnd. revert ratings.
  induction Hnd as [|k contexts Hk Hnd IH]; intros ratings Hcover.
  - destruct ratings as [|r ratings]; [done|].
    specialize (Hcover r ltac:(by left)). by apply elem_of_nil in Hcover.
  - rewrite bind_cons.
    etransitivity;
      [|apply (filter_app_complement (fun r => context r = k) ratings)].
    apply Permutation_app; [done|].
    rewrite <- (IH (filter (fun r => context r <> k) ratings)).
    + assert (Hext : forall l : list string,
                 Forall (fun c => c <> k) l ->
                 l ≫= (fun c => filter (fun r => context r = c) ratings)
                 = l ≫= (fun c =>
                           filter (fun r => context r = c)
                             (filter (fun r => context r <> k) ratings))).
      { induction 1 as [|c l Hc Hl IHl]; [done|].
        rewrite !bind_cons, IHl. f_equal.
        clear -Hc. induction ratings as [|r ratings IHr]; [done|].
        rewrite !filter_cons.
        destruct (decide (context r = c)) as [Heq|Hne].
        - rewrite decide_True by congruence.
          rewrite filter_cons, decide_True by done. by rewrite IHr.
        - destruct (decide (context r <> k)); [|done].
          by rewrite filter_cons, decide_False. }
      rewrite Hext; [done|].
      apply Forall_forall. intros c Hc ->. done.
    + intros r [Hr Hin]%list_elem_of_filter.
      specialize (Hcover r Hin).
      apply elem_of_cons in Hcover as [?|?]; done.
Qed.

Lemma filter_filter_context ratings c k :
  filter (fun r => context r = c) (filter (fun r => context r = k) ratings)
  = if decide (c = k) then filter (fun r => context r = c) ratings else [].
Proof.
  induction ratings as [|r ratings IH]; [by case_decide|].
  rewrite !filter_cons.
  destruct (decide (context r = k)) as [Hk|Hk].
  - rewrite filter_cons, IH.
    destruct (decide (c = k)) as [->|Hne].
    + by rewrite decide_True.
    + rewrite decide_False by congruence. done.
  - rewrite IH. destruct (decide (c = k)) as [->|Hne]; [|done].
    by rewrite decide_False.
Qed.

Lemma filter_bind_filter (contexts : list string) ratings c :
  NoDup contexts ->
  filter (fun r => context r = c)
    (contexts ≫= (fun c' => filter (fun r => context r = c') ratings))
  = if decide (c ∈ contexts) then filter (fun r => context r = c) ratings
    else [].
Proof.
  induction 1 as [|k contexts Hk Hnd IH].
  - rewrite decide_False; [done|]. apply not_elem_of_nil.
  - rewrite bind_cons, filter_app, IH, filter_filter_context.
    destruct (decide (c = k)) as [->|Hne].
    + rewrite decide_False by done.
      rewrite decide_True by (by left). by rewrite app_nil_r.
    + destruct (decide (c ∈ contexts)) as [Hin|Hin].
      * rewrite decide_True by (by right). done.
      * rewrite decide_False; [done|].
        intros [?|?]%elem_of_cons; done.
Qed.

Lemma listedRatings_Permutation ratings :
  RatingsList.listedRatings ratings ≡ₚ ratings.
Proof.
  rewrite listedRatings_eq. unfold sortedContexts, groupedRatings.
  rewrite sort_Permutation.
  apply bind_filter_Permutation; [apply NoDup_keys_groupBy|].
  intros r Hr. apply elem_of_keys_groupBy. eauto.
Qed.

(** X12.  Every fetched rating is listed exactly once: the ratings that
    the component goes through, context by context in sorted order, are
    a rearrangement of the fetched ratings, and within one context they
    keep their order. *)
Theorem every_rating_listed_once ratings :
  RatingsList.listedRatings ratings ≡ₚ ratings
  /\ (forall c,
        filter (fun r => context r = c) (RatingsList.listedRatings ratings)
        = filter (fun r => context r = c) ratings).
Proof.
  split; [apply listedRatings_Permutation|].
  rewrite listedRatings_eq. unfold sortedContexts, groupedRatings.
  - intros c. rewrite filter_bind_filter.
    + case_decide as Hin; [done|].
      rewrite sort_Permutation, elem_of_keys_groupBy in Hin.
      destruct (filter _ ratings) as [|r group] eqn:E; [done|].
      exfalso. apply Hin. exists r.
      assert (r ∈ filter (fun r => context r = c) ratings) as Hr
        by (rewrite E; by left).
      by apply list_elem_of_filter in Hr as [? ?].
    + rewrite sort_Permutation. apply NoDup_keys_groupBy.
Qed.

End RatingsListProperties.

Section RatingsRenderProperties.
Import EntityRatings.

Implicit Types (ratings : list Rating).

Lemma renderRating_None (r : Rating) :
  renderRating r = None <-> comments r = [].
Proof. unfold renderRating, thread. by destruct (comments r). Qed.

Lemma renderContext_Some ratings c section :
  renderContext (groupBy ratings) c = Some section ->
  exists views,
    section = (c, views)
    /\ mapM renderRating (filter (fun r => context r = c) ratings)
       = Some views.
Proof.
  unfold renderContext. rewrite get_groupBy_default.
  destruct (mapM renderRating _) as [views|]; simpl; [|done].
  intros [= <-]. eauto.
Qed.

Lemma mapM_renderContext_None ratings :
  mapM (renderContext (groupBy ratings)) (sort (keys (groupBy ratings)))
    = None
  <-> exists r, r ∈ ratings /\ comments r = [].
Proof.
  rewrite mapM_None, Exists_exists. split.
  - intros (c & _ & Hnone). unfold renderContext in Hnone.
    rewrite get_groupBy_default in Hnone.
    destruct (mapM renderRating _) as [views|] eqn:E; [done|].
    apply mapM_None, Exists_exists in E as (r & Hr & Hnone').
    apply list_elem_of_filter in Hr as [_ Hr].
    exists r. split; [done|]. by apply renderRating_None.
  - intros (r & Hr & Hempty). exists (context r). split.
    + rewrite sort_Permutation. apply elem_of_keys_groupBy. eauto.
    + unfold renderContext. rewrite get_groupBy_default.
      rewrite (mapM_None_2 renderRating); [done|].
      apply Exists_exists. exists r. split.
      * by apply list_elem_of_filter.
      * by apply renderRating_None.
Qed.

(** X13.  Once the ratings have arrived, the component throws exactly
    when one of them has no comment at all; otherwise it returns a view.
    One such rating takes the whole list down. *)
Theorem render_throws_on_rating_without_comment
    (ratingsIds : list string) ratings :
  ratingsIds <> [] ->
  let response := {| data := Some ratings; error := None |} in
  (render ratingsIds response = Threw <->
   exists r, r ∈ ratings /\ comments r = [])
  /\ ((forall r, r ∈ ratings -> comments r <> []) ->
      exists sections, render ratingsIds response = Returned (Some sections)).
Proof.
  intros Hids response. unfold render.
  assert (hasRatings ratingsIds = true) as ->
    by (by destruct ratingsIds).
  simpl. pose proof (mapM_renderContext_None ratings) as Hnone.
  destruct (mapM _ _) as [sections|]; split.
  - split; [done|]. intros H. by apply Hnone in H.
  - eauto.
  - split; [intros _; by apply Hnone|done].
  - intros Hall. destruct Hnone as [(r & Hr & Hempty) _]; [done|].
    by destruct (Hall r Hr).
Qed.

Lemma sections_of_contexts ratings (contexts : list string)
    (sections : list (string * list CommentView)) :
  Forall2 (fun c section => renderContext (groupBy ratings) c = Some section)
    contexts sections ->
  sections.*1 = contexts
  /\ Forall2 (fun r view => renderRating r = Some view)
       (contexts ≫= (fun c => filter (fun r => context r = c) ratings))
       (concat sections.*2)
  /\ Forall2 (fun c section =>
                length section.2
                = length (filter (fun r => context r = c) ratings))
       contexts sections.
Proof.
  induction 1 as [|c section contexts sections Hc _ IH]; [done|].
  destruct IH as (Hfst & Hviews & Hlen).
  apply renderContext_Some in Hc as (views & -> & Hmap).
  rewrite bind_cons. split_and!.
  - simpl. f_equal. exact Hfst.
  - simpl. apply Forall2_app; [by apply mapM_Some|exact Hviews].
  - constructor; [|done]. simpl. symmetry. by eapply length_mapM.
Qed.

Lemma sections_nonempty ratings (contexts : list string)
    (sections : list (string * list CommentView)) :
  Forall2 (fun c section =>
             length section.2
             = length (filter (fun r => context r = c) ratings))
    contexts sections ->
  Forall (fun c => exists r, r ∈ ratings /\ context r = c) contexts ->
  Forall (fun section => section.2 <> []) sections.
Proof.
  induction 1 as [|c section contexts sections Hc _ IH]; [done|].
  intros [(r & Hr & Hctx) Hin]%Forall_cons.
  constructor; [|by apply IH].
  intros Hempty. rewrite Hempty in Hc. simpl in Hc.
  assert (r ∈ filter (fun r => context r = c) ratings) as Hrin
    by (by apply list_elem_of_filter).
  destruct (filter _ ratings); [by apply elem_of_nil in Hrin|done].
Qed.

(** X14.  Whenever the component returns a view, ids were given, the
    request has not failed and the ratings have arrived; the sections are
    the contexts in sorted order, one section each and none empty; the
    comments of the view, section after section, are those of the listed
    ratings, each with its own root, source and replies, as many as
    ratings were fetched. *)
Theorem rendered_view_lists_all_ratings
    (ratingsIds : list string) (response : Response (list Rating))
    (sections : list (string * list CommentView)) :
  render ratingsIds response = Returned (Some sections) ->
  ratingsIds <> []
  /\ error response = None
  /\ exists ratings,
       data response = Some ratings
       /\ sections.*1 = sortedContexts ratings
       /\ Forall (fun section => section.2 <> []) sections
       /\ Forall2
            (fun r view =>
               exists rootComment,
                 comments r = rootComment :: replies view
                 /\ root view = rootComment
                 /\ rootSource view = source r)
            (RatingsList.listedRatings ratings) (concat sections.*2)
       /\ length (concat sections.*2) = length ratings.
Proof.
  unfold render. destruct ratingsIds as [|id ids]; [done|]. simpl.
  destruct (error response); [done|].
  destruct (data response) as [ratings|]; [|done].
  destruct (mapM _ _) as [sections'|] eqn:Hmap; [|done].
  intros [= ->]. split_and!; try done. exists ratings.
  apply mapM_Some, sections_of_contexts in Hmap as (Hfst & Hviews & Hlen).
  fold (sortedContexts ratings) in *.
  rewrite <- listedRatings_eq in Hviews.
  split_and!; try done.
  - apply (sections_nonempty ratings (sortedContexts ratings)); [done|].
    apply Forall_forall. intros c Hc.
    unfold sortedContexts, groupedRatings in Hc.
    by rewrite sort_Permutation, elem_of_keys_groupBy in Hc.
  - eapply Forall2_impl; [exact Hviews|].
    intros r view. unfold renderRating, thread.
    destruct (comments r) as [|rootComment others]; [done|].
    intros [= <-]. simpl. eauto.
  - rewrite <- (Forall2_length _ _ _ Hviews).
    apply Permutation_length, listedRatings_Permutation.
Qed.

(** X15.  Between the context sections there is a divider after each
    but the last: for n sections, n - 1 dividers. *)
Theorem dividers_between_sections (sortedContexts : list string) :
  sortedContexts <> [] ->
  RatingsList.dividers sortedContexts
    = replicate (length sortedContexts - 1) true ++ [false].
Proof.
  intros Hne. unfold RatingsList.dividers.
  apply list_eq. intros i. rewrite list_lookup_imap.
  assert (0 < length sortedContexts)%nat
    by (destruct sortedContexts; [done|simpl; lia]).
  destruct (decide (i < length sortedContexts - 1)%nat) as [Hlt|Hge].
  - rewrite lookup_app_l by (rewrite length_replicate; lia).
    rewrite lookup_replicate_2 by done.
    destruct (lookup_lt_is_Some_2 sortedContexts i) as [c ->]; [lia|].
    simpl. by rewrite (proj2 (Nat.eqb_neq _ _)) by lia.
  - destruct (decide (i = length sortedContexts - 1)%nat) as [->|Hne'].
    + rewrite lookup_app_r by (rewrite length_replicate; lia).
      rewrite length_replicate, Nat.sub_diag.
      destruct (lookup_lt_is_Some_2 sortedContexts
                  (length sortedContexts - 1)) as [c ->]; [lia|].
      simpl. by rewrite Nat.eqb_refl.
    + rewrite lookup_ge_None_2 by lia.
      rewrite lookup_ge_None_2; [done|].
      rewrite length_app, length_replicate. simpl. lia.
Qed.

End RatingsRenderProperties.

(** ** The further properties on the sample data *)

Lemma rejected_commit_changes_nothing_witness :
  (Some <$> EntryForm.createdId MoreSamples.failingServer
              (adaptedEntry Samples.newEntry)) = None
  /\ EntryForm.createNewEntry Samples.asSearchEntry MoreSamples.failingServer
    MoreSamples.toDetailView
       Samples.newEntry Samples.createQuery false None Samples.freshWorld
     = (EntryForm.Rejected,
        EntryForm.log
          (EntryForm.AxiosRequest EntryForm.POST Endpoints.postEntries
             (adaptedEntry Samples.newEntry))
          Samples.freshWorld).
Proof.
  split; [reflexivity|].
  apply (rejected_commit_changes_nothing Samples.asSearchEntry
           MoreSamples.failingServer
             MoreSamples.toDetailView Samples.createQuery false None
           Samples.newEntry Samples.freshWorld).
  reflexivity.
Defined.

Lemma confirmation_replays_submission_witness :
  EntryForm.duplicatesOf Samples.duplicatesServer
    (EntryForm.duplicatePayload Samples.newEntry)
    = Some [Samples.candidate1; Samples.candidate2]
  /\ let w1 :=
       (EntryForm.onFinish Samples.asSearchEntry Samples.duplicatesServer
         MoreSamples.toDetailView
          Samples.createQuery false None Samples.newEntry
          Samples.freshWorld).2 in
     EntryForm.entries
       (EntryForm.HandlerModal Samples.asSearchEntry Samples.duplicatesServer
         MoreSamples.toDetailView
          Samples.createQuery false None w1).2
     = EntryForm.entries
         (EntryForm.createNewEntry Samples.asSearchEntry
            Samples.duplicatesServer
              MoreSamples.toDetailView Samples.newEntry Samples.createQuery
            false None Samples.freshWorld).2.
Proof.
  split; [reflexivity|].
  apply (confirmation_replays_submission Samples.asSearchEntry
           Samples.duplicatesServer
             MoreSamples.toDetailView Samples.createQuery false None
           Samples.newEntry [Samples.candidate1; Samples.candidate2]
           Samples.freshWorld); [reflexivity|discriminate].
Defined.

Lemma no_commit_without_duplicate_check_witness :
  EntryForm.effects Samples.freshWorld = []
  /\ EntryForm.showModal Samples.freshWorld = false
  /\ exists w',
       Session.run Samples.asSearchEntry Samples.duplicatesServer
         MoreSamples.toDetailView
         Samples.createQuery false None
         [Session.Submit Samples.newEntry; Session.Confirm]
         Samples.freshWorld = Some w'
       /\ forall pre e post,
            EntryForm.effects w' = pre ++ e :: post ->
            EntryForm.isCommit e = true ->
            exists c, c ∈ pre /\ Session.isDuplicateCheck c = true.
Proof.
  split; [reflexivity|]. split; [reflexivity|].
  eexists. split; [reflexivity|].
  apply (no_commit_without_duplicate_check Samples.asSearchEntry
           Samples.duplicatesServer
             MoreSamples.toDetailView Samples.createQuery false None
           [Session.Submit Samples.newEntry; Session.Confirm]
           Samples.freshWorld); reflexivity.
Defined.

Lemma collection_only_grows_witness :
  exists w',
    Session.run Samples.asSearchEntry Samples.quietServer
      MoreSamples.toDetailView Samples.createQuery
      true (Some "42") [Session.Submit Samples.editedEntry]
      Samples.freshWorld = Some w'
    /\ exists added,
         EntryForm.entries w' = added ++ EntryForm.entries Samples.freshWorld
         /\ (true = true -> added = []).
Proof.
  eexists. split; [reflexivity|].
  apply (collection_only_grows Samples.asSearchEntry Samples.quietServer
    MoreSamples.toDetailView
           Samples.createQuery true (Some "42")
           [Session.Submit Samples.editedEntry] Samples.freshWorld).
  reflexivity.
Defined.

Lemma shown_form_initial_values_witness :
  let response := {| data := Some [Samples.editedEntry]; error := None |} in
  let initialValues :=
    <["categories" := JArr [JStr "initiative"]]> Samples.editedEntry in
  EntryForm.render (fun _ => JStr "initiative") Slug.INITIATIVE Slug.EDIT
    response = Some (EntryForm.Form initialValues)
  /\ initialValues !! "categories" = Some (JArr [JStr "initiative"]).
Proof.
  split; [reflexivity|].
  apply (shown_form_initial_values (fun _ => JStr "initiative")
           Slug.INITIATIVE Slug.EDIT
           {| data := Some [Samples.editedEntry]; error := None |}).
  reflexivity.
Defined.

Lemma entry_fetched_only_on_edit_witness :
  Samples.rootQuery !! "org-tag" = Some (QString "garden")
  /\ EntryFormData.orgTag Samples.rootQuery = Some "garden".
Proof.
  split; [reflexivity|].
  apply (entry_fetched_only_on_edit None Samples.rootQuery).
  split; [reflexivity|discriminate].
Defined.

Lemma address_lookup_keeps_typed_fields_witness :
  ("telephone"
     ∉ ["lat"; "lng"; "country"; "city"; "state"; "street"; "zip"])
  /\ EntryFormData.setAddressDetails (fun address => prop address "town")
       MoreSamples.typedForm MoreSamples.pin (Some MoreSamples.address)
       !! "telephone"
     = MoreSamples.typedForm !! "telephone".
Proof.
  assert (Hk : "telephone" ∉ ["lat"; "lng"; "country"; "city"; "state";
                              "street"; "zip"]).
  { rewrite !not_elem_of_cons. repeat split; try discriminate.
    apply not_elem_of_nil. }
  split; [exact Hk|].
  by apply (address_lookup_keeps_typed_fields
              (fun address => prop address "town") MoreSamples.typedForm
              MoreSamples.pin (Some MoreSamples.address)).
Defined.

Lemma license_in_check_and_commit_witness :
  Samples.newEntry !! "license" = Some (JArr [JStr "CC0-1.0"])
  /\ EntryForm.duplicatePayload Samples.newEntry !! "license"
     = Some (licenseRule (JArr [JStr "CC0-1.0"])).
Proof.
  split; [reflexivity|].
  apply (license_in_check_and_commit Samples.newEntry). reflexivity.
Defined.

Lemma card_body_is_cut_witness :
  ResultCard.render MoreSamples.types (fun _ => "") MoreSamples.card
    = ResultCard.Returned
        {| ResultCard.className := "initiative-result-card";
           ResultCard.cardTitle := "Garden";
           ResultCard.timeDescription := None;
           ResultCard.body :=
             Some ([71; 114; 252; 110]%N ++ replicate 66 32%N,
                   ["garden"; "food"; "urban"]) |}
  /\ exists shown shownTags,
       Some ([71; 114; 252; 110]%N ++ replicate 66 32%N,
             ["garden"; "food"; "urban"]) = Some (shown, shownTags)
       /\ length shown = 70%nat
       /\ length shownTags = 3%nat.
Proof.
  assert (Hrender :
    ResultCard.render MoreSamples.types (fun _ => "") MoreSamples.card
    = ResultCard.Returned
        {| ResultCard.className := "initiative-result-card";
           ResultCard.cardTitle := "Garden";
           ResultCard.timeDescription := None;
           ResultCard.body :=
             Some ([71; 114; 252; 110]%N ++ replicate 66 32%N,
                   ["garden"; "food"; "urban"]) |}) by reflexivity.
  split; [exact Hrender|].
  destruct (card_body_is_cut MoreSamples.types (fun _ => "") MoreSamples.card)
    as [_ Hcard].
  destruct (Hcard _ Hrender) as (_ & Hbody & _).
  destruct (Hbody ["garden"; "food"; "urban"; "open"] eq_refl)
    as (shown & shownTags & Heq & _ & Hlen & _ & Hlen').
  exists shown, shownTags. split; [exact Heq|]. split; [exact Hlen|exact Hlen'].
Defined.

Lemma render_throws_on_rating_without_comment_witness :
  ["r1"; "r4"] <> []
  /\ MoreSamples.orphan ∈ [Samples.fairness1; MoreSamples.orphan]
  /\ EntityRatings.render ["r1"; "r4"]
       (MoreSamples.arrived [Samples.fairness1; MoreSamples.orphan])
     = EntityRatings.Threw.
Proof.
  assert (Hin : MoreSamples.orphan ∈ [Samples.fairness1; MoreSamples.orphan])
    by (right; left).
  split; [discriminate|]. split; [exact Hin|].
  apply (render_throws_on_rating_without_comment ["r1"; "r4"]
           [Samples.fairness1; MoreSamples.orphan]); [discriminate|].
  exists MoreSamples.orphan. by split.
Defined.

Lemma rendered_view_lists_all_ratings_witness :
  exists sections,
    EntityRatings.render ["r1"; "r2"]
      (MoreSamples.arrived [Samples.fairness1; Samples.diversity1])
    = EntityRatings.Returned (Some sections)
    /\ sections.*1 = ["diversity"; "fairness"]
    /\ length (concat sections.*2) = 2%nat.
Proof.
  eexists. split; [reflexivity|]. split; [reflexivity|].
  destruct (rendered_view_lists_all_ratings ["r1"; "r2"]
              (MoreSamples.arrived [Samples.fairness1; Samples.diversity1])
              _ eq_refl)
    as (_ & _ & ratings & [= <-] & _ & _ & _ & Hlen).
  exact Hlen.
Defined.

Lemma dividers_between_sections_witness :
  ["diversity"; "fairness"; "humanity"] <> []
  /\ RatingsList.dividers ["diversity"; "fairness"; "humanity"]
     = [true; true; false].
Proof.
  split; [discriminate|].
  apply (dividers_between_sections ["diversity"; "fairness"; "humanity"]).
  discriminate.
Defined.
